(** * Vortex: a Groth16 verifier bound to the caller's address

    A shallow embedding of the [vortex::vortex] Move module
    (contracts/sources/vortex.move) and of the client script that drives it
    (scripts/src/transact.ts), with the properties of the protocol
    specification stated over them.

    Move integers are [Z] with their range written out, byte vectors are
    lists of 8-bit values, structs are records, and code that reads or
    writes through [&mut] references is written in a state-and-abort monad.
    The parts of the Sui framework the module calls ([sui::address],
    [sui::bcs], [sui::groth16], [sui::object], [sui::transfer]) are a
    dependency of the package and not part of it; their Move wrappers are
    transcribed and their natives are the methods of a class. *)

From Stdlib Require Import ZArith List Lia Bool Wf_Z Zpow_facts.
From Stdlib Require Import Zmod.
From Stdlib Require String.
From Bignums Require Import BigZ.
Import ListNotations.
Import String.StringSyntax.
Delimit Scope string_scope with string.

Local Open Scope Z_scope.

(* ================================================================= *)
(** ** Move values, aborts and mutable references                    *)
(* ================================================================= *)

Module Move.

Definition u8 : Type := Z.
Definition u64 : Type := Z.
Definition u256 : Type := Z.
Definition vector (A : Type) : Type := list A.

Definition MAX_U8 : Z := 2 ^ 8 - 1.
Definition MAX_U64 : Z := 2 ^ 64 - 1.
Definition MAX_U256 : Z := 2 ^ 256 - 1.

Definition is_u8 (b : Z) : bool := (0 <=? b) && (b <=? MAX_U8).

(** How a call ends: it returns, it aborts with a code, or the VM stops
    it on an arithmetic error (overflow, division by zero). *)
Inductive result (A : Type) : Type :=
| Ok (a : A)
| Abort (code : u64)
| ArithmeticError.
Arguments Ok {A} a.
Arguments Abort {A} code.
Arguments ArithmeticError {A}.

Definition succeeded {A} (r : result A) : bool :=
  match r with Ok _ => true | _ => false end.

(** A computation over the memory [S] reachable through the [&mut]
    references it was handed. *)
Definition M (S A : Type) : Type := S -> result (A * S).

Definition bind {S A B} (m : M S A) (k : A -> M S B) : M S B :=
  fun s =>
    match m s with
    | Ok (a, s') => k a s'
    | Abort c => Abort c
    | ArithmeticError => ArithmeticError
    end.

Definition gets {S A} (f : S -> A) : M S A := fun s => Ok (f s, s).
Definition modify {S} (f : S -> S) : M S unit := fun s => Ok (tt, f s).

Definition lift {S A} (r : result A) : M S A :=
  fun s =>
    match r with
    | Ok a => Ok (a, s)
    | Abort c => Abort c
    | ArithmeticError => ArithmeticError
    end.

(** [assert!(cond, code)] *)
Definition assert_ {S} (cond : bool) (code : u64) : M S unit :=
  fun s => if cond then Ok (tt, s) else Abort code.

(** The outcome of a computation with the memory dropped. *)
Definition outcome {S A} (r : result (A * S)) : result A :=
  match r with
  | Ok (a, _) => Ok a
  | Abort c => Abort c
  | ArithmeticError => ArithmeticError
  end.

(** Unsigned [/]: stops on a zero divisor. *)
Definition div (a b : Z) : result Z :=
  if b =? 0 then ArithmeticError else Ok (a / b).

(** [+] on [u64]: stops on overflow. *)
Definition add_u64 (a b : u64) : result u64 :=
  if a + b >? MAX_U64 then ArithmeticError else Ok (a + b).

(** [vector::length] *)
Definition length {A} (v : vector A) : u64 := Z.of_nat (List.length v).

End Move.

Import Move.

Declare Scope move_scope.
Delimit Scope move_scope with move.
Notation "x <- m ;; k" := (Move.bind m (fun x => k))
  (at level 61, m at next level, right associativity) : move_scope.
Notation "m ;;; k" := (Move.bind m (fun _ => k))
  (at level 61, right associativity) : move_scope.

(* ================================================================= *)
(** ** The framework modules the package depends on                  *)
(* ================================================================= *)

(** [sui::address]: an address is 32 bytes; [to_u256] reads them as a
    big-endian integer. *)
Module address.

Definition address : Type := vector u8.

Definition length : Z := 32.

Definition well_formed (a : address) : bool :=
  (Move.length a =? length) && forallb is_u8 a.

Definition to_u256 (a : address) : u256 :=
  fold_left (fun acc b => acc * 256 + b) a 0.

(** The address whose last byte is [b] and whose other bytes are zero,
    written [0x..b]. *)
Definition small (b : u8) : address := repeat 0 31 ++ [b].

End address.

(** [sui::bcs]: the canonical encoding of a [u256] is its 32 bytes,
    least significant first. *)
Module bcs.

Fixpoint le_bytes (n : nat) (v : Z) : vector u8 :=
  match n with
  | O => []
  | S k => (v mod 256) :: le_bytes k (v / 256)
  end.

Definition to_bytes_u256 (v : u256) : vector u8 := le_bytes 32 v.

End bcs.

(** [sui::groth16].  The two natives are class methods: preparing a
    verifying key either yields the four serialized components or fails;
    the pairing check over serialized inputs yields [None] when an input
    does not deserialize and [Some b] with the result of the pairing
    equation otherwise. *)
Module groth16.

Definition EInvalidVerifyingKey : u64 := 0.
Definition EInvalidCurve : u64 := 1.
Definition ETooManyPublicInputs : u64 := 2.
Definition EInvalidScalar : u64 := 3.
Definition MaxPublicInputs : u64 := 8.

Record Curve : Type := { id : u8 }.

Definition bls12381 : Curve := {| id := 0 |}.
Definition bn254 : Curve := {| id := 1 |}.

Record PreparedVerifyingKey : Type := {
  vk_gamma_abc_g1_bytes : vector u8;
  alpha_g1_beta_g2_bytes : vector u8;
  gamma_g2_neg_pc_bytes : vector u8;
  delta_g2_neg_pc_bytes : vector u8;
}.

Record PublicProofInputs : Type := { inputs_bytes : vector u8 }.
Record ProofPoints : Type := { points_bytes : vector u8 }.

Class Natives : Type := {
  prepare_in_bytes : u8 -> vector u8 -> option PreparedVerifyingKey;
  verify_in_bytes :
    u8 -> PreparedVerifyingKey -> vector u8 -> vector u8 -> option bool;
}.

Definition supported (curve_id : u8) : bool :=
  (curve_id =? 0) || (curve_id =? 1).

Section Wrappers.
Context {natives : Natives}.

Definition prepare_verifying_key_internal
    (curve_id : u8) (verifying_key : vector u8)
  : result PreparedVerifyingKey :=
  if supported curve_id then
    match prepare_in_bytes curve_id verifying_key with
    | Some pvk => Ok pvk
    | None => Abort EInvalidVerifyingKey
    end
  else Abort EInvalidCurve.

Definition prepare_verifying_key
    (curve : Curve) (verifying_key : vector u8)
  : result PreparedVerifyingKey :=
  prepare_verifying_key_internal (id curve) verifying_key.

Definition public_proof_inputs_from_bytes (bytes : vector u8)
  : result PublicProofInputs :=
  if negb (Move.length bytes mod 32 =? 0) then Abort EInvalidScalar
  else if negb (Move.length bytes / 32 <=? MaxPublicInputs)
       then Abort ETooManyPublicInputs
  else Ok {| inputs_bytes := bytes |}.

Definition proof_points_from_bytes (bytes : vector u8) : ProofPoints :=
  {| points_bytes := bytes |}.

(** An unsupported curve or an oversized input vector aborts; any
    input that does not deserialize is reported as [false]. *)
Definition verify_groth16_proof_internal
    (curve_id : u8) (pvk : PreparedVerifyingKey)
    (public_proof_inputs proof_points : vector u8) : result bool :=
  if supported curve_id then
    if Move.length public_proof_inputs >? 32 * MaxPublicInputs
    then Abort ETooManyPublicInputs
    else match verify_in_bytes curve_id pvk
                 public_proof_inputs proof_points with
         | Some b => Ok b
         | None => Ok false
         end
  else Abort EInvalidCurve.

Definition verify_groth16_proof
    (curve : Curve) (prepared_verifying_key : PreparedVerifyingKey)
    (public_proof_inputs : PublicProofInputs)
    (proof_points : ProofPoints) : result bool :=
  verify_groth16_proof_internal (id curve) prepared_verifying_key
    (inputs_bytes public_proof_inputs) (points_bytes proof_points).

End Wrappers.

End groth16.

(** [sui::tx_context] and [sui::object]: the context of the running
    transaction and the creation of fresh object ids from it. *)
Module tx_context.

Record TxContext : Type := {
  sender : address.address;
  tx_hash : vector u8;
  ids_created : u64;
}.

Class Natives : Type := {
  derive_id : vector u8 -> u64 -> address.address;
}.

Definition fresh_object_address {natives : Natives} (ctx : TxContext)
  : result (address.address * TxContext) :=
  match add_u64 (ids_created ctx) 1 with
  | Ok n =>
      Ok (derive_id (tx_hash ctx) (ids_created ctx),
          {| sender := sender ctx; tx_hash := tx_hash ctx;
             ids_created := n |})
  | Abort c => Abort c
  | ArithmeticError => ArithmeticError
  end.

End tx_context.

Module object.

Record UID : Type := { uid_bytes : address.address }.

Definition new {natives : tx_context.Natives} (ctx : tx_context.TxContext)
  : result (UID * tx_context.TxContext) :=
  match tx_context.fresh_object_address ctx with
  | Ok (a, ctx') => Ok ({| uid_bytes := a |}, ctx')
  | Abort c => Abort c
  | ArithmeticError => ArithmeticError
  end.

End object.

(** [sui::transfer]: sharing an object publishes it among the shared
    objects of the ledger. *)
Module transfer.

Definition share_object {T : Type} (obj : T) (shared : list T) : list T :=
  shared ++ [obj].

End transfer.

(** Modelled from the spec: the module [vortex::vortex_constants] is not
    among the sources; its macro [verifying_key!()] expands to the fixed
    embedded verification key, a byte vector produced once by the circuit
    compilation step.  The bytes are a parameter. *)
Module vortex_constants.

Class Constants : Type := { verifying_key : vector u8 }.

End vortex_constants.

(* ================================================================= *)
(** ** contracts/sources/vortex.move                                 *)
(* ================================================================= *)

Module vortex.

Definition BN254_FIELD_MODULUS : u256 :=
  21888242871839275222246405745257275088548364400416034343698204186575808495617.

Record Vortex : Type := {
  id : object.UID;
  curve : groth16.Curve;
  vk : groth16.PreparedVerifyingKey;
}.

(** What [init] reaches: its transaction context and the shared objects
    of the ledger. *)
Record InitMem : Type := {
  init_ctx : tx_context.TxContext;
  shared : list Vortex;
}.

(** What [transact] reaches: the two [&mut] references it is handed. *)
Record TransactMem : Type := {
  self : Vortex;
  ctx : tx_context.TxContext;
}.

Section Functions.
Context {g16 : groth16.Natives} {txn : tx_context.Natives}
        {consts : vortex_constants.Constants}.

Local Open Scope move_scope.

(** [object::new(ctx)] through the [ctx] reference of [init]. *)
Definition object_new : M InitMem object.UID :=
  fun m =>
    match object.new (init_ctx m) with
    | Ok (uid, ctx') => Ok (uid, {| init_ctx := ctx'; shared := shared m |})
    | Abort c => Abort c
    | ArithmeticError => ArithmeticError
    end.

Definition init : M InitMem unit :=
  let curve := groth16.bn254 in
  uid <- object_new ;;
  pvk <- lift (groth16.prepare_verifying_key curve
                 vortex_constants.verifying_key) ;;
  let vortex := {| id := uid; vk := pvk; curve := curve |} in
  modify (fun m => {| init_ctx := init_ctx m;
                      shared := transfer.share_object vortex (shared m) |}).

(** The quotient computed on line 35, before its encoding. *)
Definition recipient_value (ctx : tx_context.TxContext) : result u256 :=
  Move.div (address.to_u256 (tx_context.sender ctx)) BN254_FIELD_MODULUS.

(** [bcs::to_bytes(&(ctx.sender().to_u256() / BN254_FIELD_MODULUS))] *)
Definition recipient_field (ctx : tx_context.TxContext)
  : result (vector u8) :=
  match recipient_value ctx with
  | Ok q => Ok (bcs.to_bytes_u256 q)
  | Abort c => Abort c
  | ArithmeticError => ArithmeticError
  end.

Definition transact (proof_points : vector u8) : M TransactMem unit :=
  c <- gets ctx ;;
  recipient <- lift (recipient_field c) ;;
  the_curve <- gets (fun m => curve (self m)) ;;
  the_vk <- gets (fun m => vk (self m)) ;;
  inputs <- lift (groth16.public_proof_inputs_from_bytes recipient) ;;
  let points := groth16.proof_points_from_bytes proof_points in
  ok <- lift (groth16.verify_groth16_proof the_curve the_vk inputs points) ;;
  assert_ ok 0.

(** The states of the verifier object. *)
Inductive VerifierState : Type :=
| Uninitialized
| Ready (v : Vortex).

(** An object is in the state [init] leaves it in when its curve is BN254
    and its key is the prepared form of the embedded verification key. *)
Definition is_ready (v : Vortex) : Prop :=
  curve v = groth16.bn254 /\
  groth16.prepare_verifying_key groth16.bn254 vortex_constants.verifying_key
  = Ok (vk v).

End Functions.

End vortex.

(* ================================================================= *)
(** ** The ledger's side of a call                                   *)
(* ================================================================= *)

(** A transaction command names a function and lists its arguments; the
    ledger supplies the transaction context itself, binds the listed
    arguments to the remaining parameters in order, runs the function, and
    keeps its writes only if it returns.  This is the platform's part,
    written out for the signature of [transact]; an argument is kept with
    the type the client encoded it at. *)
Module ledger.

Inductive CallArg : Type :=
| ObjectArg (object_id : address.address)
| PureVectorU8 (bytes : vector u8)
| PureU256 (value : u256).

Inductive ExecutionStatus : Type :=
| Success
| MoveAbort (code : u64)
| MovePrimitiveRuntimeError
| CommandArgumentError.

Definition address_eqb (a b : address.address) : bool :=
  if list_eq_dec Z.eq_dec a b then true else false.

Section Calls.
Context {g16 : groth16.Natives}.

(** Running [vortex::transact] on the object [v]: the object after the
    transaction, and how the transaction ended. *)
Definition run_transact (v : vortex.Vortex) (ctx : tx_context.TxContext)
    (proof_points : vector u8) : vortex.Vortex * ExecutionStatus :=
  match vortex.transact proof_points
          {| vortex.self := v; vortex.ctx := ctx |} with
  | Ok (_, m) => (vortex.self m, Success)
  | Abort c => (v, MoveAbort c)
  | ArithmeticError => (v, MovePrimitiveRuntimeError)
  end.

(** [transact(self: &mut Vortex, proof_points: vector<u8>, ctx: &mut
    TxContext)]: two parameters are bound from the command. *)
Definition call_transact (v : vortex.Vortex) (ctx : tx_context.TxContext)
    (args : list CallArg) : vortex.Vortex * ExecutionStatus :=
  match args with
  | [ObjectArg oid; PureVectorU8 proof_points] =>
      if address_eqb oid (object.uid_bytes (vortex.id v))
      then run_transact v ctx proof_points
      else (v, CommandArgumentError)
  | _ => (v, CommandArgumentError)
  end.

End Calls.

Section Machine.
Context {g16 : groth16.Natives} {txn : tx_context.Natives}
        {consts : vortex_constants.Constants}.

(** The module initializer runs once, when the package is published; from
    then on the only entry point is [transact]. *)
Inductive step : vortex.VerifierState -> vortex.VerifierState -> Prop :=
| step_publish ctx ctx' v :
    vortex.init {| vortex.init_ctx := ctx; vortex.shared := [] |}
    = Ok (tt, {| vortex.init_ctx := ctx'; vortex.shared := [v] |}) ->
    step vortex.Uninitialized (vortex.Ready v)
| step_call v ctx args :
    step (vortex.Ready v) (vortex.Ready (fst (call_transact v ctx args))).

End Machine.

End ledger.

(* ================================================================= *)
(** ** scripts/src/transact.ts                                       *)
(* ================================================================= *)

(** The script is a sequence of calls into its environment (the file
    system, the compiled circuit package, the ledger client) inside one
    [try]/[catch].  A JavaScript string is its sequence of UTF-16 code
    units; a call that throws is [None]; what the script does is the
    trace of the calls it makes. *)
Module client.

Definition jsstring : Type := list Z.

(** White space and line terminators of the language, the characters
    [String.prototype.trim] removes. *)
Definition is_white_space (c : Z) : bool :=
  existsb (Z.eqb c)
    [9; 10; 11; 12; 13; 32; 160; 5760; 8232; 8233; 8239; 8287; 12288; 65279]
  || ((8192 <=? c) && (c <=? 8202)).

Fixpoint trimStart (s : jsstring) : jsstring :=
  match s with
  | [] => []
  | c :: rest => if is_white_space c then trimStart rest else s
  end.

Definition trimEnd (s : jsstring) : jsstring := rev (trimStart (rev s)).

Definition trim (s : jsstring) : jsstring := trimEnd (trimStart s).

(** A string with no white space at its start, and at its end. *)
Definition starts_clean (s : jsstring) : bool :=
  match s with
  | [] => true
  | c :: _ => negb (is_white_space c)
  end.

Definition ends_clean (s : jsstring) : bool := starts_clean (rev s).

(** The two key files, [rust-circuit/keys/*.hex] next to the script. *)
Inductive KeyFile : Type :=
| verificationKeyPath
| provingKeyPath.

(** [{ a: a.toString(), b: b.toString(), c: result.toString() }], each
    field the decimal rendering of the integer kept here. *)
Record Witness : Type := { wa : Z; wb : Z; wc : Z }.

Record Proof : Type := {
  proofA : list Z;
  proofB : list Z;
  proofC : list Z;
  publicInputs : list jsstring;
  proofSerializedHex : jsstring;
  publicInputsSerializedHex : jsstring;
}.

Record MoveCall : Type := {
  package : jsstring;
  module : String.string;
  function : String.string;
  arguments : list ledger.CallArg;
}.

Inductive Event : Type :=
| Main
| ReadFile (path : KeyFile)
| Prove (witness : Witness) (provingKey : jsstring)
| Verify (proofJson : jsstring) (verificationKey : jsstring)
| LogVerified (isVerified : bool)
| SignAndExecute (call : MoveCall)
| LogResult
| LogError.

(** Modelled from the spec: the circuit package
    ([rust-circuit/pkg/nodejs/vortex]) and [utils/constants] are not among
    the sources; [prove] and [verify] are the generator's two operations
    and the two constants name the deployed package and its pool object. *)
Class Env : Type := {
  main : option unit;
  readFileSync_utf8 : KeyFile -> option jsstring;
  prove : Witness -> jsstring -> option jsstring;
  verify : jsstring -> jsstring -> option bool;
  JSON_parse : jsstring -> option Proof;
  fromHex : jsstring -> option (vector u8);
  signAndExecuteTransaction : MoveCall -> option unit;
  VORTEX_PACKAGE_ID : jsstring;
  VORTEX_POOL_OBJECT_ID : address.address;
}.

(** A trace of calls and, unless something threw, a value. *)
Definition Script (A : Type) : Type := list Event * option A.

Definition andThen {A B} (m : Script A) (k : A -> Script B) : Script B :=
  match m with
  | (t, Some a) => let (t', r) := k a in (t ++ t', r)
  | (t, None) => (t, None)
  end.

Definition call {A} (e : Event) (r : option A) : Script A := ([e], r).

Definition log (e : Event) : Script unit := ([e], Some tt).

Section Script.
Context {env : Env}.

Definition body : Script unit :=
  andThen (call Main main) (fun _ =>
  let a := 5 in
  let b := 6 in
  let result := a * b in
  andThen (call (ReadFile provingKeyPath)
             (option_map trim (readFileSync_utf8 provingKeyPath)))
    (fun provingKey =>
  andThen (call (ReadFile verificationKeyPath)
             (option_map trim (readFileSync_utf8 verificationKeyPath)))
    (fun verificationKey =>
  let witness := {| wa := a; wb := b; wc := result |} in
  andThen (call (Prove witness provingKey) (prove witness provingKey))
    (fun proofJson =>
  andThen ([], JSON_parse proofJson) (fun proof =>
  andThen (call (Verify proofJson (trim verificationKey))
             (verify proofJson (trim verificationKey)))
    (fun isVerified =>
  andThen (log (LogVerified isVerified)) (fun _ =>
  andThen ([], fromHex ([48; 120] ++ proofSerializedHex proof))
    (fun proofBytes =>
  let tx := {| package := VORTEX_PACKAGE_ID;
               module := "vortex"%string;
               function := "transact"%string;
               arguments := [ledger.ObjectArg VORTEX_POOL_OBJECT_ID;
                             ledger.PureVectorU8 proofBytes;
                             ledger.PureU256 result] |} in
  andThen (call (SignAndExecute tx) (signAndExecuteTransaction tx))
    (fun _ => log LogResult))))))))).

(** The [catch] clause logs whatever was thrown. *)
Definition run : list Event :=
  match body with
  | (t, Some _) => t
  | (t, None) => t ++ [LogError]
  end.

(** The command the script submits, when it gets that far. *)
Definition submitted : option MoveCall :=
  let pick e := match e with SignAndExecute c => Some c | _ => None end in
  fold_right (fun e acc => match pick e with Some c => Some c | None => acc end)
    None run.

End Script.

End client.

(* ================================================================= *)
(** ** Notions the statements use                                    *)
(* ================================================================= *)

(** The recipient binding as the specification words it: the caller's
    identity value reduced modulo the field modulus, in the canonical
    encoding.  It is compared below with [vortex.recipient_field]. *)
Module spec.

Definition recipientField (ctx : tx_context.TxContext) : vector u8 :=
  bcs.to_bytes_u256
    (address.to_u256 (tx_context.sender ctx) mod vortex.BN254_FIELD_MODULUS).

End spec.

(** The public input [transact] hands to the verifier. *)
Definition public_input (ctx : tx_context.TxContext) : vector u8 :=
  bcs.to_bytes_u256
    (address.to_u256 (tx_context.sender ctx) / vortex.BN254_FIELD_MODULUS).

(** The verification [transact] runs: the call on lines 37 to 43. *)
Definition verification {g16 : groth16.Natives}
    (v : vortex.Vortex) (ctx : tx_context.TxContext)
    (proof_points : vector u8) : result bool :=
  groth16.verify_groth16_proof (vortex.curve v) (vortex.vk v)
    {| groth16.inputs_bytes := public_input ctx |}
    (groth16.proof_points_from_bytes proof_points).

(** Why a submission is rejected: the proof bytes (or another input) do
    not deserialize, or they do and the pairing equation fails. *)
Inductive Failure : Type :=
| MalformedProofBytes
| VerificationFailed.

Definition failure_mode {g16 : groth16.Natives}
    (v : vortex.Vortex) (ctx : tx_context.TxContext)
    (proof_points : vector u8) : option Failure :=
  match groth16.verify_in_bytes (groth16.id (vortex.curve v)) (vortex.vk v)
          (public_input ctx) proof_points with
  | None => Some MalformedProofBytes
  | Some false => Some VerificationFailed
  | Some true => None
  end.

(** A transaction context with a given sender. *)
Definition ctx_from (who : address.address) (hash : vector u8) (n : u64)
  : tx_context.TxContext :=
  {| tx_context.sender := who; tx_context.tx_hash := hash;
     tx_context.ids_created := n |}.

(* ================================================================= *)
(** ** Sample instances                                              *)
(* ================================================================= *)

(** Concrete natives on which the definitions run: a "proof" is the input
    vector it was produced for, a prepared key repeats the key bytes, and
    object ids count up from the transaction.  They stand for no real
    cryptography; they make statements checkable on explicit data. *)
Module sample.

Definition bytes_eqb (a b : vector u8) : bool :=
  if list_eq_dec Z.eq_dec a b then true else false.

#[local] Instance g16 : groth16.Natives := {|
  groth16.prepare_in_bytes := fun _ key =>
    match key with
    | [] => None
    | _ => Some {| groth16.vk_gamma_abc_g1_bytes := key;
                   groth16.alpha_g1_beta_g2_bytes := key;
                   groth16.gamma_g2_neg_pc_bytes := key;
                   groth16.delta_g2_neg_pc_bytes := key |}
    end;
  groth16.verify_in_bytes := fun _ _ inputs points =>
    if Move.length points =? 32 then Some (bytes_eqb inputs points) else None;
|}.

#[local] Instance txn : tx_context.Natives := {|
  tx_context.derive_id := fun _ n => bcs.le_bytes 32 n;
|}.

#[local] Instance consts : vortex_constants.Constants := {|
  vortex_constants.verifying_key := [7; 7; 7];
|}.

Definition pvk : groth16.PreparedVerifyingKey :=
  {| groth16.vk_gamma_abc_g1_bytes := [7; 7; 7];
     groth16.alpha_g1_beta_g2_bytes := [7; 7; 7];
     groth16.gamma_g2_neg_pc_bytes := [7; 7; 7];
     groth16.delta_g2_neg_pc_bytes := [7; 7; 7] |}.

Definition pool : vortex.Vortex :=
  {| vortex.id := {| object.uid_bytes := bcs.le_bytes 32 0 |};
     vortex.curve := groth16.bn254;
     vortex.vk := pvk |}.

(** A script environment in which every call returns. *)
#[local] Instance env : client.Env := {|
  client.main := Some tt;
  client.readFileSync_utf8 := fun f =>
    match f with
    | client.provingKeyPath => Some [32; 97; 98; 10]
    | client.verificationKeyPath => Some [9; 99; 100; 13; 10]
    end;
  client.prove := fun _ key => Some key;
  client.verify := fun _ _ => Some true;
  client.JSON_parse := fun s =>
    Some {| client.proofA := []; client.proofB := []; client.proofC := [];
            client.publicInputs := [];
            client.proofSerializedHex := s;
            client.publicInputsSerializedHex := [] |};
  client.fromHex := fun _ => Some (bcs.to_bytes_u256 0);
  client.signAndExecuteTransaction := fun _ => Some tt;
  client.VORTEX_PACKAGE_ID := [48; 120; 50];
  client.VORTEX_POOL_OBJECT_ID := bcs.le_bytes 32 0;
|}.

End sample.

(* ================================================================= *)
(** ** Histories and further scenarios                               *)
(* ================================================================= *)

(** Any number of steps of the module, one after the other. *)
Inductive steps {g16 : groth16.Natives} {txn : tx_context.Natives}
    {consts : vortex_constants.Constants}
  : vortex.VerifierState -> vortex.VerifierState -> Prop :=
| steps_none s : steps s s
| steps_more s s' s'' : steps s s' -> ledger.step s' s'' -> steps s s''.

(** The command the script builds on lines 74 to 83 from the proof it
    parsed and the bytes [fromHex] gave it. *)
Definition script_command {env : client.Env} (proof_bytes : vector u8)
  : client.MoveCall :=
  {| client.package := client.VORTEX_PACKAGE_ID;
     client.module := "vortex"%string;
     client.function := "transact"%string;
     client.arguments :=
       [ledger.ObjectArg client.VORTEX_POOL_OBJECT_ID;
        ledger.PureVectorU8 proof_bytes;
        ledger.PureU256 30] |}.

(** The witness the script proves. *)
Definition script_witness : client.Witness :=
  {| client.wa := 5; client.wb := 6; client.wc := 30 |}.

(** Environments in which something goes wrong: an embedded key the
    framework rejects, a local verification that says no, a key file that
    is not there, a prover that throws. *)
Module scenario.

#[local] Instance rejected_key : vortex_constants.Constants := {|
  vortex_constants.verifying_key := [];
|}.

Definition with_verify (e : client.Env)
    (v : client.jsstring -> client.jsstring -> option bool) : client.Env :=
  {| client.main := @client.main e;
     client.readFileSync_utf8 := @client.readFileSync_utf8 e;
     client.prove := @client.prove e;
     client.verify := v;
     client.JSON_parse := @client.JSON_parse e;
     client.fromHex := @client.fromHex e;
     client.signAndExecuteTransaction := @client.signAndExecuteTransaction e;
     client.VORTEX_PACKAGE_ID := @client.VORTEX_PACKAGE_ID e;
     client.VORTEX_POOL_OBJECT_ID := @client.VORTEX_POOL_OBJECT_ID e |}.

Definition with_files (e : client.Env)
    (f : client.KeyFile -> option client.jsstring) : client.Env :=
  {| client.main := @client.main e;
     client.readFileSync_utf8 := f;
     client.prove := @client.prove e;
     client.verify := @client.verify e;
     client.JSON_parse := @client.JSON_parse e;
     client.fromHex := @client.fromHex e;
     client.signAndExecuteTransaction := @client.signAndExecuteTransaction e;
     client.VORTEX_PACKAGE_ID := @client.VORTEX_PACKAGE_ID e;
     client.VORTEX_POOL_OBJECT_ID := @client.VORTEX_POOL_OBJECT_ID e |}.

Definition with_prove (e : client.Env)
    (p : client.Witness -> client.jsstring -> option client.jsstring)
  : client.Env :=
  {| client.main := @client.main e;
     client.readFileSync_utf8 := @client.readFileSync_utf8 e;
     client.prove := p;
     client.verify := @client.verify e;
     client.JSON_parse := @client.JSON_parse e;
     client.fromHex := @client.fromHex e;
     client.signAndExecuteTransaction := @client.signAndExecuteTransaction e;
     client.VORTEX_PACKAGE_ID := @client.VORTEX_PACKAGE_ID e;
     client.VORTEX_POOL_OBJECT_ID := @client.VORTEX_POOL_OBJECT_ID e |}.

(** Local verification returns [false]. *)
Definition verify_says_no : client.Env :=
  with_verify sample.env (fun _ _ => Some false).

(** The verification key file cannot be read. *)
Definition missing_verification_key : client.Env :=
  with_files sample.env
    (fun f => match f with
              | client.provingKeyPath => Some [97; 98]
              | client.verificationKeyPath => None
              end).

(** The prover throws. *)
Definition prover_throws : client.Env :=
  with_prove sample.env (fun _ _ => None).

End scenario.

(* ================================================================= *)
(** ** Checking primality by computation                             *)
(* ================================================================= *)

(** Trial division for small numbers, and for large ones the test of
    Pocklington: a certificate lists prime factors [q] of [n - 1], whose
    product exceeds the square root of [n], each with a base [a] such
    that [a ^ (n - 1) = 1] and [a ^ ((n - 1) / q) - 1] is coprime to [n],
    all modulo [n]. *)
Module primality.

(** Modular exponentiation on machine-word integers. *)
Fixpoint powm (a : bigZ) (e : positive) (n : bigZ) : bigZ :=
  match e with
  | xH => BigZ.modulo a n
  | xO e' => let z := powm a e' n in BigZ.modulo (BigZ.mul z z) n
  | xI e' =>
      let z := powm a e' n in
      BigZ.modulo (BigZ.mul (BigZ.modulo (BigZ.mul z z) n) a) n
  end.

Definition pow_mod (a e n : Z) : Z :=
  BigZ.to_Z (powm (BigZ.of_Z a) (Z.to_pos e) (BigZ.of_Z n)).

Definition check_factor (n q a : Z) : bool :=
  ((n - 1) mod q =? 0) && (pow_mod a (n - 1) n =? 1)
  && (Z.gcd (pow_mod a ((n - 1) / q) n - 1) n =? 1).

Fixpoint check_factors (n : Z) (cert : list (Z * Z)) (F : Z) : option Z :=
  match cert with
  | [] => Some F
  | (q, a) :: rest =>
      if check_factor n q a && (Z.gcd F q =? 1)
      then check_factors n rest (F * q)
      else None
  end.

Definition pocklington (n : Z) (cert : list (Z * Z)) : bool :=
  (1 <? n) &&
  match check_factors n cert 1 with
  | Some F => n <? F * F
  | None => false
  end.

Fixpoint no_divisor_from (n d : Z) (fuel : nat) : bool :=
  match fuel with
  | O => false
  | S f =>
      if n <? d * d then true
      else if n mod d =? 0 then false
      else no_divisor_from n (d + 1) f
  end.

Definition trial_division (n : Z) : bool :=
  (1 <? n) && no_divisor_from n 2 (Z.to_nat (Z.sqrt n)).

End primality.

(* ================================================================= *)
(** ** Byte encodings                                                *)
(* ================================================================= *)

Lemma le_bytes_length (n : nat) (v : Z) :
  List.length (bcs.le_bytes n v) = n.
Proof.
  revert v; induction n as [|n IH]; intro v; simpl.
  - reflexivity.
  - now rewrite IH.
Qed.

Lemma to_bytes_u256_length (v : u256) :
  Move.length (bcs.to_bytes_u256 v) = 32.
Proof.
  unfold Move.length, bcs.to_bytes_u256.
  now rewrite le_bytes_length.
Qed.

(** The little-endian bytes determine the value they encode. *)
Lemma le_bytes_inj (n : nat) (v w : Z) :
  0 <= v < 256 ^ Z.of_nat n -> 0 <= w < 256 ^ Z.of_nat n ->
  bcs.le_bytes n v = bcs.le_bytes n w -> v = w.
Proof.
  revert v w; induction n as [|n IH]; intros v w Hv Hw E.
  - simpl in Hv, Hw. lia.
  - simpl in E. injection E as E0 E1.
    rewrite Nat2Z.inj_succ, Z.pow_succ_r in Hv, Hw by lia.
    assert (v / 256 = w / 256) as Q.
    { apply IH; trivial.
      - split; [apply Z.div_pos; lia | apply Z.div_lt_upper_bound; lia].
      - split; [apply Z.div_pos; lia | apply Z.div_lt_upper_bound; lia]. }
    rewrite (Z.div_mod v 256), (Z.div_mod w 256) by lia.
    now rewrite Q, E0.
Qed.

Lemma fold_be_range (a : list Z) (acc : Z) :
  forallb is_u8 a = true -> 0 <= acc ->
  0 <= fold_left (fun x b => x * 256 + b) a acc
    < (acc + 1) * 256 ^ Z.of_nat (List.length a).
Proof.
  revert acc; induction a as [|b a IH]; intros acc Ha Hacc.
  - simpl. lia.
  - simpl in Ha. apply andb_prop in Ha as [Hb Ha].
    unfold is_u8, MAX_U8 in Hb. apply andb_prop in Hb as [Hb0 Hb1].
    apply Z.leb_le in Hb0, Hb1. simpl in Hb1.
    cbn [fold_left List.length].
    specialize (IH (acc * 256 + b) Ha ltac:(lia)).
    rewrite Nat2Z.inj_succ, Z.pow_succ_r by lia.
    split; [lia|].
    eapply Z.lt_le_trans; [apply IH|].
    assert (0 < 256 ^ Z.of_nat (List.length a)) by (apply Z.pow_pos_nonneg; lia).
    nia.
Qed.

(** A well-formed address is a 256-bit value. *)
Lemma to_u256_range (a : address.address) :
  address.well_formed a = true -> 0 <= address.to_u256 a <= MAX_U256.
Proof.
  unfold address.well_formed, Move.length, address.length.
  intro H. apply andb_prop in H as [Hlen Hall].
  apply Z.eqb_eq in Hlen.
  assert (Z.of_nat (@List.length Z a) = 32) as Hlen' by exact Hlen.
  pose proof (fold_be_range a 0 Hall ltac:(lia)) as R.
  rewrite Hlen' in R. unfold address.to_u256, MAX_U256.
  change (256 ^ 32) with (2 ^ 256) in R. lia.
Qed.

(* ================================================================= *)
(** ** What [transact] computes                                      *)
(* ================================================================= *)

Lemma modulus_nonzero : (vortex.BN254_FIELD_MODULUS =? 0) = false.
Proof. reflexivity. Qed.

(** The division never stops the VM: the divisor is a nonzero constant. *)
Lemma recipient_value_eq (ctx : tx_context.TxContext) :
  vortex.recipient_value ctx
  = Ok (address.to_u256 (tx_context.sender ctx) / vortex.BN254_FIELD_MODULUS).
Proof.
  unfold vortex.recipient_value, Move.div.
  now rewrite modulus_nonzero.
Qed.

Lemma recipient_field_eq (ctx : tx_context.TxContext) :
  vortex.recipient_field ctx
  = Ok (bcs.to_bytes_u256
          (address.to_u256 (tx_context.sender ctx)
           / vortex.BN254_FIELD_MODULUS)).
Proof.
  unfold vortex.recipient_field. now rewrite recipient_value_eq.
Qed.

(** Below the modulus the quotient is zero. *)
Lemma recipient_field_below_modulus (ctx : tx_context.TxContext) :
  address.well_formed (tx_context.sender ctx) = true ->
  address.to_u256 (tx_context.sender ctx) < vortex.BN254_FIELD_MODULUS ->
  vortex.recipient_field ctx = Ok (bcs.to_bytes_u256 0).
Proof.
  intros Hwf Hlt. rewrite recipient_field_eq.
  apply to_u256_range in Hwf.
  rewrite Z.div_small by lia. reflexivity.
Qed.

(** For every caller with a nonzero value below the modulus the code's
    public input is the encoding of zero and the specified one is not. *)
Lemma recipient_field_misses_residue (ctx : tx_context.TxContext) :
  address.well_formed (tx_context.sender ctx) = true ->
  0 < address.to_u256 (tx_context.sender ctx) < vortex.BN254_FIELD_MODULUS ->
  vortex.recipient_field ctx = Ok (bcs.to_bytes_u256 0)
  /\ spec.recipientField ctx <> bcs.to_bytes_u256 0.
Proof.
  intros Hwf [Hpos Hlt]. split.
  - now apply recipient_field_below_modulus.
  - unfold spec.recipientField. rewrite Z.mod_small by lia.
    intro E. apply le_bytes_inj in E; [lia| |].
    + assert (vortex.BN254_FIELD_MODULUS < 256 ^ Z.of_nat 32) by reflexivity.
      lia.
    + split; reflexivity.
Qed.

Section Transact.
Context {g16 : groth16.Natives}.

(** One 32-byte scalar is always an acceptable input vector. *)
Lemma public_input_accepted (q : u256) :
  groth16.public_proof_inputs_from_bytes (bcs.to_bytes_u256 q)
  = Ok {| groth16.inputs_bytes := bcs.to_bytes_u256 q |}.
Proof.
  unfold groth16.public_proof_inputs_from_bytes.
  rewrite to_bytes_u256_length. reflexivity.
Qed.

(** [transact] is its verification followed by the assertion, and it
    writes nothing. *)
Lemma transact_eq (proof_points : vector u8) (m : vortex.TransactMem) :
  vortex.transact proof_points m
  = match verification (vortex.self m) (vortex.ctx m) proof_points with
    | Ok true => Ok (tt, m)
    | Ok false => Abort 0
    | Abort c => Abort c
    | ArithmeticError => ArithmeticError
    end.
Proof.
  unfold vortex.transact, verification, public_input, bind, gets, lift.
  rewrite recipient_field_eq, public_input_accepted.
  destruct (groth16.verify_groth16_proof _ _ _ _) as [[|]| |]; reflexivity.
Qed.

(** On the BN254 curve the verification returns a boolean. *)
Lemma verification_bn254 (v : vortex.Vortex) (ctx : tx_context.TxContext)
    (proof_points : vector u8) :
  vortex.curve v = groth16.bn254 ->
  verification v ctx proof_points
  = Ok (match groth16.verify_in_bytes 1 (vortex.vk v)
                (public_input ctx) proof_points with
        | Some b => b
        | None => false
        end).
Proof.
  intro Hc.
  unfold verification, groth16.verify_groth16_proof,
    groth16.verify_groth16_proof_internal, groth16.proof_points_from_bytes.
  rewrite Hc. cbn [groth16.id groth16.inputs_bytes groth16.points_bytes].
  change (groth16.supported 1) with true. cbv iota.
  unfold public_input. rewrite to_bytes_u256_length.
  change (32 >? 32 * groth16.MaxPublicInputs) with false. cbv iota.
  destruct (groth16.verify_in_bytes _ _ _ _); reflexivity.
Qed.

End Transact.

(* ================================================================= *)
(** ** The recipient binding                                         *)
(* ================================================================= *)

(** C1 (evaluated at the caller 0x..01).  The specification asks for the
    caller's identity value reduced modulo the field modulus; line 35
    divides by the modulus instead.  For the caller whose value is 1 the
    code's public input is the encoding of 0, the specified one is the
    encoding of 1, and the two differ in their first byte. *)
Theorem recipient_field_is_quotient_at_one (hash : vector u8) (n : u64) :
  let ctx := ctx_from (address.small 1) hash n in
  vortex.recipient_field ctx = Ok (bcs.to_bytes_u256 0)
  /\ spec.recipientField ctx = bcs.to_bytes_u256 1
  /\ hd 0 (bcs.to_bytes_u256 0) = 0
  /\ hd 0 (bcs.to_bytes_u256 1) = 1.
Proof.
  intro ctx. repeat split.
Qed.

(** C3.  Any two callers whose values lie below the field modulus get the
    same public input, byte for byte: the encoding of zero. *)
Theorem recipient_field_same_below_modulus (cx cy : tx_context.TxContext) :
  address.well_formed (tx_context.sender cx) = true ->
  address.well_formed (tx_context.sender cy) = true ->
  address.to_u256 (tx_context.sender cx) < vortex.BN254_FIELD_MODULUS ->
  address.to_u256 (tx_context.sender cy) < vortex.BN254_FIELD_MODULUS ->
  vortex.recipient_field cx = vortex.recipient_field cy
  /\ vortex.recipient_field cx = Ok (bcs.to_bytes_u256 0)
  /\ bcs.to_bytes_u256 0 = repeat 0 32.
Proof.
  intros Wx Wy Lx Ly.
  rewrite (recipient_field_below_modulus cx Wx Lx).
  rewrite (recipient_field_below_modulus cy Wy Ly).
  repeat split.
Qed.

Lemma recipient_field_same_below_modulus_witness :
  address.small 1 <> address.small 2
  /\ vortex.recipient_field (ctx_from (address.small 1) [] 0)
     = vortex.recipient_field (ctx_from (address.small 2) [] 0).
Proof.
  split.
  - discriminate.
  - apply (recipient_field_same_below_modulus
             (ctx_from (address.small 1) [] 0)
             (ctx_from (address.small 2) [] 0));
      reflexivity.
Defined.

(* ================================================================= *)
(** ** Acceptance, rejection and the frame                           *)
(* ================================================================= *)

Section Verifier.
Context {g16 : groth16.Natives}.

(** [transact] sees of its caller the quotient by the modulus only. *)
Lemma transact_outcome_by_quotient
    (v : vortex.Vortex) (proof_points : vector u8)
    (cx cy : tx_context.TxContext) :
  address.to_u256 (tx_context.sender cx) / vortex.BN254_FIELD_MODULUS
  = address.to_u256 (tx_context.sender cy) / vortex.BN254_FIELD_MODULUS ->
  outcome (vortex.transact proof_points
             {| vortex.self := v; vortex.ctx := cx |})
  = outcome (vortex.transact proof_points
               {| vortex.self := v; vortex.ctx := cy |}).
Proof.
  intro Q. rewrite !transact_eq. cbn [vortex.self vortex.ctx].
  unfold verification, public_input. rewrite Q.
  destruct (groth16.verify_groth16_proof _ _ _ _) as [[|]| |]; reflexivity.
Qed.

(** C2 (evaluated at the callers 0x..00 and 0x..01).  The binding asks
    that a proof made for one identity be rejected for every other.  For
    the identity 0x..00 the specified public input and the one the code
    computes agree (both encode 0); the code computes the same input for
    the caller 0x..01, so [transact] ends the same way for both: whatever
    proof is accepted from the first is accepted from the second. *)
Theorem transact_does_not_tell_callers_apart
    (v : vortex.Vortex) (proof_points hash hash' : vector u8) (n n' : u64) :
  let cx := ctx_from (address.small 0) hash n in
  let cy := ctx_from (address.small 1) hash' n' in
  spec.recipientField cx = public_input cx
  /\ address.to_u256 (address.small 0) = 0
  /\ address.to_u256 (address.small 1) = 1
  /\ outcome (vortex.transact proof_points
                {| vortex.self := v; vortex.ctx := cx |})
     = outcome (vortex.transact proof_points
                  {| vortex.self := v; vortex.ctx := cy |}).
Proof.
  intros cx cy. repeat split.
  now apply transact_outcome_by_quotient.
Qed.

(** C4.  On a Ready object the verification returns a boolean, and
    [transact] returns exactly when that boolean is true; otherwise the
    transaction aborts and the object and the context are as before. *)
Theorem transact_completes_iff_verified
    {consts : vortex_constants.Constants}
    (v : vortex.Vortex) (ctx : tx_context.TxContext)
    (proof_points : vector u8) :
  vortex.is_ready v ->
  exists b : bool,
    verification v ctx proof_points = Ok b
    /\ vortex.transact proof_points {| vortex.self := v; vortex.ctx := ctx |}
       = (if b then Ok (tt, {| vortex.self := v; vortex.ctx := ctx |})
          else Abort 0)
    /\ ledger.run_transact v ctx proof_points
       = (v, if b then ledger.Success else ledger.MoveAbort 0)
    /\ (succeeded (vortex.transact proof_points
                     {| vortex.self := v; vortex.ctx := ctx |}) = true
        <-> verification v ctx proof_points = Ok true).
Proof.
  intros [Hc _].
  pose proof (verification_bn254 v ctx proof_points Hc) as E.
  eexists. split; [exact E|].
  unfold ledger.run_transact.
  rewrite transact_eq. cbn [vortex.self vortex.ctx]. rewrite E.
  destruct (match groth16.verify_in_bytes _ _ _ _ with
            | Some b => b | None => false end); cbn;
    repeat split; try reflexivity; try discriminate.
Qed.

(** C5.  On a Ready object both ways of failing, proof bytes that do not
    deserialize and a pairing equation that does not hold, end the
    transaction with the same signal: abort code 0 and nothing else. *)
Theorem failures_are_one_abort
    {consts : vortex_constants.Constants}
    (v : vortex.Vortex) (ctx : tx_context.TxContext)
    (proof_points : vector u8) :
  vortex.is_ready v ->
  ledger.run_transact v ctx proof_points
  = (v, match failure_mode v ctx proof_points with
        | None => ledger.Success
        | Some MalformedProofBytes => ledger.MoveAbort 0
        | Some VerificationFailed => ledger.MoveAbort 0
        end).
Proof.
  intros [Hc _].
  unfold ledger.run_transact, failure_mode.
  rewrite transact_eq. cbn [vortex.self vortex.ctx].
  rewrite (verification_bn254 v ctx proof_points Hc), Hc.
  cbn [groth16.id groth16.bn254].
  destruct (groth16.verify_in_bytes _ _ _ _) as [[|]|]; reflexivity.
Qed.

(** [transact] returns with the memory it was given, or aborts. *)
Lemma transact_frame (proof_points : vector u8) (m : vortex.TransactMem) :
  vortex.transact proof_points m = Ok (tt, m)
  \/ exists c, vortex.transact proof_points m = Abort c.
Proof.
  rewrite transact_eq.
  assert (verification (vortex.self m) (vortex.ctx m) proof_points
          <> ArithmeticError) as NA.
  { unfold verification, groth16.verify_groth16_proof,
      groth16.verify_groth16_proof_internal.
    destruct (groth16.supported _); [|discriminate].
    destruct (_ >? _); [discriminate|].
    destruct (groth16.verify_in_bytes _ _ _ _); discriminate. }
  destruct (verification _ _ _) as [[|]|c|];
    [ | | | contradiction ]; eauto.
Qed.

Lemma run_transact_frame (v : vortex.Vortex) (ctx : tx_context.TxContext)
    (proof_points : vector u8) :
  ledger.run_transact v ctx proof_points = (v, ledger.Success)
  \/ exists c, ledger.run_transact v ctx proof_points
               = (v, ledger.MoveAbort c).
Proof.
  unfold ledger.run_transact.
  destruct (transact_frame proof_points
              {| vortex.self := v; vortex.ctx := ctx |}) as [R|[c R]];
    rewrite R; cbn; eauto.
Qed.

Lemma call_transact_frame (v : vortex.Vortex) (ctx : tx_context.TxContext)
    (args : list ledger.CallArg) :
  fst (ledger.call_transact v ctx args) = v.
Proof.
  destruct args as [|[oid| |] [|[|pp|] [|]]]; try reflexivity.
  cbn [ledger.call_transact].
  destruct (ledger.address_eqb oid _); [|reflexivity].
  destruct (run_transact_frame v ctx pp) as [R|[c R]]; now rewrite R.
Qed.

(** C7.  Whatever the object, the proof and the caller, [transact]
    either returns with the memory it was given, every field of the
    object included, or it aborts; the ledger holds the same object after
    the call as before it, however the call was made and however it
    ended. *)
Theorem transact_writes_nothing
    (v : vortex.Vortex) (ctx : tx_context.TxContext)
    (proof_points : vector u8) (args : list ledger.CallArg) :
  let m := {| vortex.self := v; vortex.ctx := ctx |} in
  (vortex.transact proof_points m = Ok (tt, m)
   \/ exists c, vortex.transact proof_points m = Abort c)
  /\ fst (ledger.run_transact v ctx proof_points) = v
  /\ fst (ledger.call_transact v ctx args) = v.
Proof.
  intro m. split; [apply transact_frame|]. split.
  - destruct (run_transact_frame v ctx proof_points) as [R|[c R]];
      now rewrite R.
  - apply call_transact_frame.
Qed.

End Verifier.

Lemma sample_pool_ready :
  @vortex.is_ready sample.g16 sample.consts sample.pool.
Proof. split; reflexivity. Qed.

Lemma transact_completes_iff_verified_witness :
  exists b : bool,
    @verification sample.g16 sample.pool (ctx_from (address.small 1) [] 0)
      (bcs.to_bytes_u256 0) = Ok b
    /\ b = true.
Proof.
  destruct (@transact_completes_iff_verified sample.g16 sample.consts
              sample.pool (ctx_from (address.small 1) [] 0)
              (bcs.to_bytes_u256 0) sample_pool_ready)
    as [b [E _]].
  exists b. split; [exact E|].
  vm_compute in E. now injection E as <-.
Defined.

Lemma failures_are_one_abort_witness :
  @ledger.run_transact sample.g16 sample.pool
     (ctx_from (address.small 1) [] 0) [1; 2; 3]
  = (sample.pool, ledger.MoveAbort 0)
  /\ @ledger.run_transact sample.g16 sample.pool
       (ctx_from (address.small 1) [] 0) (bcs.to_bytes_u256 1)
     = (sample.pool, ledger.MoveAbort 0).
Proof.
  split.
  - exact (@failures_are_one_abort sample.g16 sample.consts sample.pool
             (ctx_from (address.small 1) [] 0) [1; 2; 3] sample_pool_ready).
  - reflexivity.
Defined.

Example sample_proof_accepted_from_both_callers :
  @ledger.run_transact sample.g16 sample.pool
     (ctx_from (address.small 0) [] 0) (bcs.to_bytes_u256 0)
  = (sample.pool, ledger.Success)
  /\ @ledger.run_transact sample.g16 sample.pool
       (ctx_from (address.small 1) [] 0) (bcs.to_bytes_u256 0)
     = (sample.pool, ledger.Success).
Proof. split; reflexivity. Qed.

(* ================================================================= *)
(** ** The call contract                                             *)
(* ================================================================= *)

Lemma address_eqb_eq (a b : address.address) :
  ledger.address_eqb a b = true -> a = b.
Proof.
  unfold ledger.address_eqb.
  destruct (list_eq_dec Z.eq_dec a b); [trivial | discriminate].
Qed.

(** Whenever the script gets as far as submitting a command, the command
    lists three arguments: the pool object, the proof bytes, and the
    value 30. *)
Lemma script_submits_three_arguments {env : client.Env}
    (call : client.MoveCall) :
  client.submitted = Some call ->
  exists proof_bytes,
    client.arguments call
    = [ledger.ObjectArg client.VORTEX_POOL_OBJECT_ID;
       ledger.PureVectorU8 proof_bytes;
       ledger.PureU256 30].
Proof.
  unfold client.submitted, client.run, client.body, client.andThen,
    client.call, client.log.
  destruct client.main as [[]|]; [|discriminate].
  destruct (client.readFileSync_utf8 client.provingKeyPath) as [pk|];
    [|discriminate].
  destruct (client.readFileSync_utf8 client.verificationKeyPath) as [vk|];
    [|discriminate].
  cbn [option_map].
  destruct (client.prove _ _) as [pj|]; [|discriminate].
  destruct (client.JSON_parse pj) as [pr|]; [|discriminate].
  destruct (client.verify _ _) as [b|]; [|discriminate].
  destruct (client.fromHex _) as [bytes|]; [|discriminate].
  destruct (client.signAndExecuteTransaction _);
    cbn; intro E; injection E as <-; now exists bytes.
Qed.

Section Contract.
Context {g16 : groth16.Natives}.

(** C6, as the code has it.  A command reaches [transact] only when it
    lists exactly the pool object and the proof bytes; the caller's
    identity comes with the transaction context.  The call then returns
    nothing, or aborts with a code and no other payload. *)
Theorem transact_takes_object_and_proof
    (v : vortex.Vortex) (ctx : tx_context.TxContext)
    (args : list ledger.CallArg) :
  snd (ledger.call_transact v ctx args) <> ledger.CommandArgumentError ->
  exists proof_points,
    args = [ledger.ObjectArg (object.uid_bytes (vortex.id v));
            ledger.PureVectorU8 proof_points]
    /\ ledger.call_transact v ctx args
       = ledger.run_transact v ctx proof_points
    /\ (ledger.call_transact v ctx args = (v, ledger.Success)
        \/ exists c, ledger.call_transact v ctx args
                     = (v, ledger.MoveAbort c)).
Proof.
  intro H.
  destruct args as [|[oid| |] [|[|pp|] [|]]]; cbn in H; try congruence.
  cbn [ledger.call_transact] in *.
  destruct (ledger.address_eqb oid _) eqn:E; cbn in H; [|congruence].
  apply address_eqb_eq in E. subst oid.
  exists pp. repeat split.
  destruct (run_transact_frame v ctx pp) as [R|[c R]]; rewrite R; eauto.
Qed.

(** A command with any third argument is turned away before [transact]
    runs. *)
Lemma three_arguments_do_not_bind
    (v : vortex.Vortex) (ctx : tx_context.TxContext)
    (a b c : ledger.CallArg) :
  ledger.call_transact v ctx [a; b; c] = (v, ledger.CommandArgumentError).
Proof.
  destruct a, b; reflexivity.
Qed.

End Contract.

Lemma transact_takes_object_and_proof_witness :
  exists proof_points,
    [ledger.ObjectArg (bcs.le_bytes 32 0);
     ledger.PureVectorU8 (bcs.to_bytes_u256 0)]
    = [ledger.ObjectArg (object.uid_bytes (vortex.id sample.pool));
       ledger.PureVectorU8 proof_points].
Proof.
  destruct (@transact_takes_object_and_proof sample.g16 sample.pool
              (ctx_from (address.small 1) [] 0)
              [ledger.ObjectArg (bcs.le_bytes 32 0);
               ledger.PureVectorU8 (bcs.to_bytes_u256 0)])
    as [pp [E _]].
  - vm_compute. discriminate.
  - exists pp. exact E.
Defined.

(** C6, as stated, fails: the three arguments the script submits (pool
    object, proof bytes, the value 30) do not bind to the parameters of
    [transact]; the command is turned away and no verification runs. *)
Lemma client_arguments_do_not_bind :
  exists call,
    @client.submitted sample.env = Some call
    /\ client.arguments call
       = [ledger.ObjectArg (object.uid_bytes (vortex.id sample.pool));
          ledger.PureVectorU8 (bcs.to_bytes_u256 0);
          ledger.PureU256 30]
    /\ @ledger.call_transact sample.g16 sample.pool
         (ctx_from (address.small 1) [] 0) (client.arguments call)
       = (sample.pool, ledger.CommandArgumentError).
Proof.
  eexists. split; [reflexivity|]. split; reflexivity.
Qed.

(* ================================================================= *)
(** ** Initialization and the state machine                          *)
(* ================================================================= *)

Section Lifecycle.
Context {g16 : groth16.Natives} {txn : tx_context.Natives}
        {consts : vortex_constants.Constants}.

(** What [init] does to its memory, whatever the shared objects were. *)
Lemma init_eq (m : vortex.InitMem) :
  tx_context.ids_created (vortex.init_ctx m) < MAX_U64 ->
  vortex.init m
  = match groth16.prepare_verifying_key groth16.bn254
            vortex_constants.verifying_key with
    | Ok pvk =>
        let ctx := vortex.init_ctx m in
        Ok (tt,
            {| vortex.init_ctx :=
                 ctx_from (tx_context.sender ctx) (tx_context.tx_hash ctx)
                   (tx_context.ids_created ctx + 1);
               vortex.shared :=
                 vortex.shared m ++
                 [{| vortex.id :=
                       {| object.uid_bytes :=
                            tx_context.derive_id (tx_context.tx_hash ctx)
                              (tx_context.ids_created ctx) |};
                     vortex.curve := groth16.bn254;
                     vortex.vk := pvk |}] |})
    | Abort c => Abort c
    | ArithmeticError => ArithmeticError
    end.
Proof.
  intro Hn.
  unfold vortex.init, vortex.object_new, object.new,
    tx_context.fresh_object_address, add_u64, bind, lift, modify.
  destruct (_ >? MAX_U64) eqn:G.
  - apply Z.gtb_lt in G. lia.
  - cbn [vortex.init_ctx vortex.shared].
    destruct (groth16.prepare_verifying_key _ _); reflexivity.
Qed.

(** Publishing leaves a Ready object. *)
Lemma publish_is_ready (v : vortex.Vortex) :
  ledger.step vortex.Uninitialized (vortex.Ready v) -> vortex.is_ready v.
Proof.
  inversion 1 as [ctx ctx' v' E|]; subst.
  unfold vortex.init, vortex.object_new, bind, lift, modify in E.
  cbn [vortex.init_ctx vortex.shared] in E.
  destruct (object.new ctx) as [[uid c1]| |]; try discriminate.
  destruct (groth16.prepare_verifying_key _ _) as [pvk| |] eqn:P;
    try discriminate.
  cbn in E. injection E as _ <-.
  split; [reflexivity | exact P].
Qed.

(** A Ready object stays the object it is. *)
Lemma ready_is_terminal (v : vortex.Vortex) (s : vortex.VerifierState) :
  ledger.step (vortex.Ready v) s -> s = vortex.Ready v.
Proof.
  inversion 1; subst. now rewrite call_transact_frame.
Qed.

(** C8.  Initialization picks the BN254 curve, prepares the embedded
    verification key, and shares the object built from them (or fails as
    the preparation of the key fails); the object a publication leaves is
    Ready, and no step of the module takes a Ready object anywhere else
    or back to the uninitialized state. *)
Theorem init_publishes_ready_object (ctx : tx_context.TxContext) :
  tx_context.ids_created ctx < MAX_U64 ->
  vortex.init {| vortex.init_ctx := ctx; vortex.shared := [] |}
  = match groth16.prepare_verifying_key groth16.bn254
            vortex_constants.verifying_key with
    | Ok pvk =>
        Ok (tt,
            {| vortex.init_ctx :=
                 ctx_from (tx_context.sender ctx) (tx_context.tx_hash ctx)
                   (tx_context.ids_created ctx + 1);
               vortex.shared :=
                 [{| vortex.id :=
                       {| object.uid_bytes :=
                            tx_context.derive_id (tx_context.tx_hash ctx)
                              (tx_context.ids_created ctx) |};
                     vortex.curve := groth16.bn254;
                     vortex.vk := pvk |}] |})
    | Abort c => Abort c
    | ArithmeticError => ArithmeticError
    end
  /\ (forall v, ledger.step vortex.Uninitialized (vortex.Ready v) ->
                vortex.is_ready v)
  /\ (forall v s, ledger.step (vortex.Ready v) s -> s = vortex.Ready v)
  /\ (forall s s', ledger.step s s' -> s' <> vortex.Uninitialized).
Proof.
  intro Hn. split; [|split; [|split]].
  - rewrite init_eq by exact Hn. reflexivity.
  - apply publish_is_ready.
  - apply ready_is_terminal.
  - intros s s' St. inversion St; discriminate.
Qed.

End Lifecycle.

Lemma init_publishes_ready_object_witness :
  @vortex.init sample.g16 sample.txn sample.consts
    {| vortex.init_ctx := ctx_from (address.small 1) [] 0;
       vortex.shared := [] |}
  = Ok (tt, {| vortex.init_ctx := ctx_from (address.small 1) [] 1;
               vortex.shared := [sample.pool] |})
  /\ @ledger.step sample.g16 sample.txn sample.consts
       vortex.Uninitialized (vortex.Ready sample.pool).
Proof.
  destruct (@init_publishes_ready_object sample.g16 sample.txn sample.consts
              (ctx_from (address.small 1) [] 0)) as [E _].
  - vm_compute. reflexivity.
  - split; [exact E|].
    apply (@ledger.step_publish sample.g16 sample.txn sample.consts
             (ctx_from (address.small 1) [] 0)
             (ctx_from (address.small 1) [] 1)).
    exact E.
Defined.

(* ================================================================= *)
(** ** Key loading in the script                                     *)
(* ================================================================= *)

Lemma trimStart_clean (s : client.jsstring) :
  client.starts_clean (client.trimStart s) = true.
Proof.
  induction s as [|c s IH]; [reflexivity|].
  simpl. destruct (client.is_white_space c) eqn:W; [exact IH|].
  simpl. now rewrite W.
Qed.

Lemma trimStart_id (s : client.jsstring) :
  client.starts_clean s = true -> client.trimStart s = s.
Proof.
  destruct s as [|c s]; [reflexivity|].
  simpl. now destruct (client.is_white_space c).
Qed.

(** [trimStart] removes a prefix of white space and nothing else. *)
Lemma trimStart_split (s : client.jsstring) :
  exists l, s = l ++ client.trimStart s
            /\ forallb client.is_white_space l = true.
Proof.
  induction s as [|c s [l [E W]]].
  - now exists [].
  - simpl. destruct (client.is_white_space c) eqn:Wc.
    + exists (c :: l). simpl. rewrite Wc, W. now rewrite <- E.
    + now exists [].
Qed.

Lemma forallb_rev {A} (f : A -> bool) (l : list A) :
  forallb f (rev l) = forallb f l.
Proof.
  induction l as [|a l IH]; [reflexivity|].
  simpl. rewrite forallb_app, IH. simpl.
  rewrite andb_true_r. apply andb_comm.
Qed.

Lemma trimEnd_split (s : client.jsstring) :
  exists r, s = client.trimEnd s ++ r
            /\ forallb client.is_white_space r = true.
Proof.
  unfold client.trimEnd.
  destruct (trimStart_split (rev s)) as [l [E W]].
  exists (rev l). split.
  - rewrite <- rev_app_distr, <- E. now rewrite rev_involutive.
  - now rewrite forallb_rev.
Qed.

Lemma trimEnd_keeps_start (s : client.jsstring) :
  client.starts_clean s = true ->
  client.starts_clean (client.trimEnd s) = true.
Proof.
  intro H. destruct (trimEnd_split s) as [r [E _]].
  destruct (client.trimEnd s) as [|c t]; [reflexivity|].
  rewrite E in H. exact H.
Qed.

Lemma trim_clean (s : client.jsstring) :
  client.starts_clean (client.trim s) = true
  /\ client.ends_clean (client.trim s) = true.
Proof.
  unfold client.trim. split.
  - apply trimEnd_keeps_start, trimStart_clean.
  - unfold client.ends_clean, client.trimEnd.
    rewrite rev_involutive. apply trimStart_clean.
Qed.

Lemma trim_idempotent (s : client.jsstring) :
  client.trim (client.trim s) = client.trim s.
Proof.
  destruct (trim_clean s) as [Hs He].
  unfold client.trim at 1.
  rewrite (trimStart_id _ Hs).
  unfold client.trimEnd at 1.
  unfold client.ends_clean in He.
  rewrite (trimStart_id _ He). apply rev_involutive.
Qed.

(** [trim] removes white space at the two ends and nothing else. *)
Lemma trim_split (s : client.jsstring) :
  exists l r, s = l ++ client.trim s ++ r
              /\ forallb client.is_white_space l = true
              /\ forallb client.is_white_space r = true.
Proof.
  destruct (trimStart_split s) as [l [El Wl]].
  destruct (trimEnd_split (client.trimStart s)) as [r [Er Wr]].
  exists l, r. unfold client.trim. now rewrite <- Er, <- El.
Qed.

Section KeyLoading.
Context {env : client.Env}.

(** C10.  When the wasm entry point returns and the two key files can
    be read, the script calls [prove] with the trimmed text of the proving
    key file, and every [verify] it makes gets the trimmed text of the
    verification key file; each is the file's text less the white space at
    its two ends, and neither starts or ends with white space. *)
Theorem keys_are_read_and_trimmed (pk vk : client.jsstring) :
  client.main = Some tt ->
  client.readFileSync_utf8 client.provingKeyPath = Some pk ->
  client.readFileSync_utf8 client.verificationKeyPath = Some vk ->
  In (client.Prove {| client.wa := 5; client.wb := 6; client.wc := 30 |}
        (client.trim pk)) client.run
  /\ (forall w key, In (client.Prove w key) client.run ->
                    key = client.trim pk)
  /\ (forall proofJson key, In (client.Verify proofJson key) client.run ->
                            key = client.trim vk)
  /\ (exists l r, pk = l ++ client.trim pk ++ r
                  /\ forallb client.is_white_space l = true
                  /\ forallb client.is_white_space r = true)
  /\ (exists l r, vk = l ++ client.trim vk ++ r
                  /\ forallb client.is_white_space l = true
                  /\ forallb client.is_white_space r = true)
  /\ client.starts_clean (client.trim pk) = true
  /\ client.ends_clean (client.trim pk) = true
  /\ client.starts_clean (client.trim vk) = true
  /\ client.ends_clean (client.trim vk) = true.
Proof.
  intros Hm Hp Hv.
  assert (In (client.Prove
                {| client.wa := 5; client.wb := 6; client.wc := 30 |}
                (client.trim pk)) client.run
          /\ (forall w key, In (client.Prove w key) client.run ->
                            key = client.trim pk)
          /\ (forall proofJson key,
                 In (client.Verify proofJson key) client.run ->
                 key = client.trim vk)) as T.
  { unfold client.run, client.body, client.andThen, client.call, client.log.
    rewrite Hm, Hp, Hv. cbn [option_map].
    rewrite trim_idempotent.
    change (5 * 6) with 30.
    destruct (client.prove _ _) as [pj|].
    2:{ cbn. repeat split; [tauto | |]; intros ? ? H;
        repeat (destruct H as [H|H]; try congruence); contradiction. }
    destruct (client.JSON_parse pj) as [pr|].
    2:{ cbn. repeat split; [tauto | |]; intros ? ? H;
        repeat (destruct H as [H|H]; try congruence); contradiction. }
    destruct (client.verify _ _) as [b|].
    2:{ cbn. repeat split; [tauto | |]; intros ? ? H;
        repeat (destruct H as [H|H]; try congruence); contradiction. }
    destruct (client.fromHex _) as [bytes|].
    2:{ cbn. repeat split; [tauto | |]; intros ? ? H;
        repeat (destruct H as [H|H]; try congruence); contradiction. }
    destruct (client.signAndExecuteTransaction _);
      cbn; (repeat split; [tauto | |]; intros ? ? H;
            repeat (destruct H as [H|H]; try congruence); contradiction). }
  destruct T as [T1 [T2 T3]].
  destruct (trim_clean pk) as [? ?], (trim_clean vk) as [? ?].
  repeat split; trivial; apply trim_split.
Qed.

End KeyLoading.

Lemma keys_are_read_and_trimmed_witness :
  client.trim [32; 97; 98; 10] = [97; 98]
  /\ In (client.Prove {| client.wa := 5; client.wb := 6; client.wc := 30 |}
           [97; 98]) (@client.run sample.env)
  /\ In (client.Verify [97; 98] [99; 100]) (@client.run sample.env).
Proof.
  destruct (@keys_are_read_and_trimmed sample.env
              [32; 97; 98; 10] [9; 99; 100; 13; 10]
              eq_refl eq_refl eq_refl) as [P _].
  split; [reflexivity|]. split; [exact P|].
  vm_compute. tauto.
Defined.

(* ================================================================= *)
(** ** The field modulus is prime                                    *)
(* ================================================================= *)

(** Fermat's little theorem, on integers. *)
Lemma fermat_Z (p a : Z) :
  Z.prime p -> ~ (p | a) -> a ^ (p - 1) mod p = 1.
Proof.
  intros Hp Ha.
  pose proof (Z.prime_ge_2 _ Hp) as H2.
  assert (Zmod.of_Z p a <> Zmod.zero) as Hnz.
  { intro E. apply Ha. unfold Zmod.zero in E.
    apply Zmod.of_Z_inj in E.
    rewrite Z.mod_0_l in E by lia.
    apply Z.mod_divide; [lia | exact E]. }
  pose proof (Zmod.fermat_nz (Zmod.of_Z p a) Hnz Hp) as F.
  replace (Z.pred p) with (p - 1) in F by lia.
  rewrite <- Zmod.of_Z_pow in F by lia.
  unfold Zmod.one in F. apply Zmod.of_Z_inj in F.
  rewrite F. apply Z.mod_1_l. lia.
Qed.

(** The exponents at which [a] is 1 modulo [p] are closed under
    multiples and under greatest common divisors. *)
Lemma pow_mod_one_mul (p a g k : Z) :
  1 < p -> 0 <= g -> 0 <= k -> a ^ g mod p = 1 -> a ^ (g * k) mod p = 1.
Proof.
  intros Hp Hg Hk H.
  rewrite Z.pow_mul_r by lia.
  rewrite Zpower_mod by lia. rewrite H.
  rewrite Z.pow_1_l by lia. apply Z.mod_1_l. lia.
Qed.

Lemma pow_mod_one_gcd (p a : Z) :
  1 < p ->
  forall n, 0 <= n -> forall m, 0 <= m ->
  a ^ m mod p = 1 -> a ^ n mod p = 1 -> a ^ Z.gcd m n mod p = 1.
Proof.
  intros Hp n Hn. pattern n. apply Z_lt_induction; [|exact Hn].
  clear n Hn. intros n IH m Hm Hm1 Hn1.
  destruct (Z.eq_dec n 0) as [->|Hnz].
  - rewrite Z.gcd_0_r, Z.abs_eq by lia. exact Hm1.
  - assert (0 <= n) as Hn.
    { destruct (Z_lt_le_dec n 0) as [Hneg|]; [|lia].
      rewrite (Z.pow_neg_r a n Hneg) in Hn1.
      rewrite Z.mod_0_l in Hn1 by lia. discriminate. }
    pose proof (Z.mod_pos_bound m n ltac:(lia)) as Hr.
    assert (a ^ (m mod n) mod p = 1) as Hr1.
    { pose proof (Z.div_mod m n Hnz) as D.
      assert (0 <= m / n) by (apply Z.div_pos; lia).
      rewrite D in Hm1 at 1.
      rewrite Z.pow_add_r in Hm1 by nia.
      rewrite Zmult_mod in Hm1.
      rewrite (pow_mod_one_mul p a n (m / n)) in Hm1 by (trivial; lia).
      rewrite Z.mul_1_l, Z.mod_mod in Hm1 by lia. exact Hm1. }
    specialize (IH (m mod n) Hr n Hn Hn1 Hr1).
    rewrite Z.gcd_comm, Z.gcd_mod in IH by lia.
    rewrite Z.gcd_comm. exact IH.
Qed.

(** Either no number of [(1, k)] divides [n], or one does. *)
Lemma divisor_below (n k : Z) :
  0 <= k ->
  (forall d, 1 < d < k -> ~ (d | n)) \/ (exists d, 1 < d < k /\ (d | n)).
Proof.
  intro Hk. pattern k. apply natlike_ind; [| |exact Hk].
  - left. intros d Hd. lia.
  - clear k Hk. intros k Hk [IH|IH].
    + destruct (Z_lt_le_dec 1 k) as [H1|H1].
      * destruct (Z.BoolSpec_divide k n) as [D|D].
        -- right. exists k. split; [lia|exact D].
        -- left. intros d Hd. destruct (Z.eq_dec d k) as [->|]; [exact D|].
           apply IH. lia.
      * left. intros d Hd. lia.
    + right. destruct IH as [d [Hd D]]. exists d. split; [lia|exact D].
Qed.

(** A number above 1 is prime or has a proper divisor, and so has a
    prime factor. *)
Lemma prime_or_divisor (n : Z) :
  1 < n -> Z.prime n \/ (exists d, 1 < d < n /\ (d | n)).
Proof.
  intro Hn. destruct (divisor_below n n ltac:(lia)) as [H|H].
  - left. split; assumption.
  - right. exact H.
Qed.

Lemma prime_factor_exists (n : Z) :
  1 < n -> exists p, Z.prime p /\ (p | n).
Proof.
  intro Hn. assert (0 <= n) as Hn0 by lia. revert Hn.
  pattern n. apply Z_lt_induction; [|exact Hn0].
  clear n Hn0. intros n IH Hn.
  destruct (prime_or_divisor n Hn) as [Hp|[d [Hd D]]].
  - exists n. split; [exact Hp|apply Z.divide_refl].
  - destruct (IH d ltac:(lia) ltac:(lia)) as [p [Hp Dp]].
    exists p. split; [exact Hp|]. eapply Z.divide_trans; eassumption.
Qed.

(** A composite number has a prime factor at most its square root. *)
Lemma small_prime_factor (n : Z) :
  1 < n -> (exists d, 1 < d < n /\ (d | n)) ->
  exists p, Z.prime p /\ (p | n) /\ p * p <= n.
Proof.
  intros Hn [d [Hd [k Hk]]].
  assert (1 < k) as Hk1 by nia.
  destruct (Z_le_gt_dec d k) as [Hle|Hgt].
  - destruct (prime_factor_exists d ltac:(lia)) as [p [Hp Dp]].
    exists p. split; [exact Hp|]. split.
    + eapply Z.divide_trans; [exact Dp|]. exists k. exact Hk.
    + pose proof (Z.prime_ge_2 _ Hp).
      assert (p <= d) by (apply Z.divide_pos_le; [lia|exact Dp]). nia.
  - destruct (prime_factor_exists k ltac:(lia)) as [p [Hp Dp]].
    exists p. split; [exact Hp|]. split.
    + eapply Z.divide_trans; [exact Dp|]. exists d. lia.
    + pose proof (Z.prime_ge_2 _ Hp).
      assert (p <= k) by (apply Z.divide_pos_le; [lia|exact Dp]). nia.
Qed.

(** Pocklington's step: with [a ^ (n - 1) = 1] and [a ^ ((n - 1) / q) - 1]
    coprime to [n], every prime factor of [n] is 1 modulo the prime [q]. *)
Lemma pocklington_step (n p q a : Z) :
  1 < n -> Z.prime p -> (p | n) -> Z.prime q -> (q | n - 1) ->
  a ^ (n - 1) mod n = 1 ->
  Z.gcd (a ^ ((n - 1) / q) mod n - 1) n = 1 ->
  (q | p - 1).
Proof.
  intros Hn Hp Dp Hq Dq H1 Hg.
  pose proof (Z.prime_ge_2 _ Hp) as Hp2.
  pose proof (Z.prime_ge_2 _ Hq) as Hq2.
  destruct (Z.BoolSpec_divide q (p - 1)) as [D|ND]; [exact D|exfalso].
  (* modulo p *)
  assert (forall x, (x mod n) mod p = x mod p) as Red.
  { intro x. apply Z.mod_mod_divide. exact Dp. }
  assert (a ^ (n - 1) mod p = 1) as Hp1.
  { rewrite <- Red, H1. apply Z.mod_1_l. lia. }
  assert (~ (p | a)) as Ha.
  { intro Da. apply Z.mod_divide in Da; [|lia].
    rewrite Zpower_mod, Da in Hp1 by lia.
    rewrite Z.pow_0_l in Hp1 by lia.
    rewrite Z.mod_0_l in Hp1 by lia. discriminate. }
  pose proof (fermat_Z p a Hp Ha) as Hf.
  pose proof (pow_mod_one_gcd p a ltac:(lia) (p - 1) ltac:(lia)
                (n - 1) ltac:(lia) Hp1 Hf) as Hgcd.
  set (g := Z.gcd (n - 1) (p - 1)) in *.
  assert (0 <= g) as Hg0 by apply Z.gcd_nonneg.
  assert ((g | n - 1)) as Dg1 by apply Z.gcd_divide_l.
  assert ((g | p - 1)) as Dg2 by apply Z.gcd_divide_r.
  assert (~ (q | g)) as NDg.
  { intro Dqg. apply ND. eapply Z.divide_trans; eassumption. }
  assert (Z.gcd g q = 1) as Cop.
  { rewrite Z.gcd_comm. apply Z.coprime_prime_l; assumption. }
  assert (n - 1 = q * ((n - 1) / q)) as Eq.
  { destruct Dq as [k Hk]. rewrite Hk, Z.div_mul by lia. lia. }
  assert ((g | (n - 1) / q)) as Dg3.
  { apply (Z.gauss g q); [|exact Cop]. rewrite <- Eq. exact Dg1. }
  destruct Dg3 as [k Hk].
  assert (0 < (n - 1) / q) as Hpos.
  { apply Z.div_str_pos. split; [lia|].
    apply Z.divide_pos_le; [lia|exact Dq]. }
  assert (0 <= k) as Hk0 by nia.
  assert (a ^ ((n - 1) / q) mod p = 1) as Hb.
  { rewrite Hk, Z.mul_comm. apply pow_mod_one_mul; trivial; lia. }
  assert ((p | a ^ ((n - 1) / q) mod n - 1)) as Db.
  { apply Z.mod_divide; [lia|].
    rewrite Zminus_mod, Red, Hb.
    rewrite (Z.mod_1_l p) by lia. rewrite Z.sub_diag. apply Z.mod_0_l. lia. }
  assert ((p | 1)) as D1.
  { rewrite <- Hg. apply Z.gcd_greatest; assumption. }
  apply Z.divide_1_r_nonneg in D1; lia.
Qed.

(** The machine-word exponentiation computes the power modulo [n]. *)
Lemma powm_spec (a : bigZ) (e : positive) (n : bigZ) :
  BigZ.to_Z n <> 0 ->
  BigZ.to_Z (primality.powm a e n) = BigZ.to_Z a ^ Zpos e mod BigZ.to_Z n.
Proof.
  intro Hn. induction e as [e IH|e IH|]; cbn [primality.powm].
  - rewrite !BigZ.spec_modulo, !BigZ.spec_mul, !BigZ.spec_modulo,
      !BigZ.spec_mul, IH.
    rewrite Pos2Z.inj_xI.
    replace (2 * Z.pos e + 1) with (Z.pos e + Z.pos e + 1) by lia.
    rewrite !Z.pow_add_r, Z.pow_1_r by lia.
    rewrite <- (Zmult_mod (BigZ.to_Z a ^ Z.pos e)).
    rewrite Z.mul_mod_idemp_l by exact Hn. reflexivity.
  - rewrite !BigZ.spec_modulo, !BigZ.spec_mul, IH.
    rewrite Pos2Z.inj_xO.
    replace (2 * Z.pos e) with (Z.pos e + Z.pos e) by lia.
    rewrite Z.pow_add_r by lia.
    rewrite <- Zmult_mod. reflexivity.
  - rewrite BigZ.spec_modulo, Z.pow_1_r. reflexivity.
Qed.

Lemma pow_mod_correct (a e n : Z) :
  0 < e -> n <> 0 -> primality.pow_mod a e n = a ^ e mod n.
Proof.
  intros He Hn. unfold primality.pow_mod.
  rewrite powm_spec; rewrite !BigZ.spec_of_Z; [|exact Hn].
  now rewrite Z2Pos.id.
Qed.

(** Soundness of the two checkers. *)
Lemma no_divisor_from_sound (n : Z) (fuel : nat) :
  forall d, 0 < d -> primality.no_divisor_from n d fuel = true ->
  forall k, d <= k -> k * k <= n -> ~ (k | n).
Proof.
  induction fuel as [|f IH]; intros d Hd H k Hk Hkk; [discriminate|].
  simpl in H.
  destruct (n <? d * d) eqn:L.
  - apply Z.ltb_lt in L. nia.
  - destruct (n mod d =? 0) eqn:R; [discriminate|].
    apply Z.eqb_neq in R.
    destruct (Z.eq_dec k d) as [->|Hne].
    + intro D. apply R. apply Z.mod_divide; [lia|exact D].
    + apply (IH (d + 1)); trivial; lia.
Qed.

Theorem trial_division_prime (n : Z) :
  primality.trial_division n = true -> Z.prime n.
Proof.
  unfold primality.trial_division. intro H. apply andb_prop in H as [H1 H2].
  apply Z.ltb_lt in H1.
  destruct (prime_or_divisor n H1) as [Hp|Hc]; [exact Hp|exfalso].
  destruct (small_prime_factor n H1 Hc) as [p [Hp [Dp Hpp]]].
  pose proof (Z.prime_ge_2 _ Hp).
  exact (no_divisor_from_sound n _ 2 ltac:(lia) H2 p ltac:(lia) Hpp Dp).
Qed.

(** Every prime factor of [n] is 1 modulo the certified product. *)
Lemma check_factors_divide (n p : Z) (cert : list (Z * Z)) :
  1 < n -> Z.prime p -> (p | n) ->
  Forall Z.prime (map fst cert) ->
  forall F0 F, (F0 | p - 1) -> primality.check_factors n cert F0 = Some F ->
  (F | p - 1).
Proof.
  intros Hn Hp Dp. induction cert as [|[q a] rest IH]; intros Hq F0 F D0 C.
  - simpl in C. now injection C as <-.
  - simpl in C, Hq. inversion Hq as [|? ? Hq1 Hq2]; subst.
    destruct (primality.check_factor n q a && (Z.gcd F0 q =? 1)) eqn:E; [|discriminate].
    apply andb_prop in E as [E1 E2]. apply Z.eqb_eq in E2.
    unfold primality.check_factor in E1.
    apply andb_prop in E1 as [E1 E3]. apply andb_prop in E1 as [E0 E1].
    apply Z.eqb_eq in E0, E1, E3.
    pose proof (Z.prime_ge_2 _ Hq1).
    assert ((q | n - 1)) as Dq by (apply Z.mod_divide; [lia|exact E0]).
    assert (0 < (n - 1) / q) as Hpos.
    { apply Z.div_str_pos. split; [lia|].
      apply Z.divide_pos_le; [lia|exact Dq]. }
    rewrite pow_mod_correct in E1, E3 by lia.
    pose proof (pocklington_step n p q a Hn Hp Dp Hq1 Dq E1 E3) as Dq1.
    apply (IH Hq2 (F0 * q)); [|exact C].
    destruct D0 as [k Hk]. rewrite Hk in Dq1 |- *.
    rewrite (Z.mul_comm k F0) in Dq1.
    apply Z.gauss in Dq1; [|rewrite Z.gcd_comm; exact E2].
    destruct Dq1 as [j ->]. exists j. ring.
Qed.

Theorem pocklington_prime (n : Z) (cert : list (Z * Z)) :
  primality.pocklington n cert = true -> Forall Z.prime (map fst cert) -> Z.prime n.
Proof.
  unfold primality.pocklington. intros H Hq.
  apply andb_prop in H as [H1 H2]. apply Z.ltb_lt in H1.
  destruct (primality.check_factors n cert 1) as [F|] eqn:C; [|discriminate].
  apply Z.ltb_lt in H2.
  destruct (prime_or_divisor n H1) as [Hp|Hc]; [exact Hp|exfalso].
  destruct (small_prime_factor n H1 Hc) as [p [Hp [Dp Hpp]]].
  pose proof (Z.prime_ge_2 _ Hp).
  pose proof (check_factors_divide n p cert H1 Hp Dp Hq 1 F
                (Z.divide_1_l _) C) as DF.
  destruct (Z_lt_le_dec F 0) as [Hneg|Hpos].
  - destruct DF as [k Hk]. assert ((- F | p - 1)) as DF' by (exists (- k); lia).
    apply Z.divide_pos_le in DF'; [|lia]. nia.
  - apply Z.divide_pos_le in DF; [|lia]. nia.
Qed.

Ltac by_trial_division :=
  apply trial_division_prime; vm_compute; reflexivity.

Ltac by_pocklington cert :=
  apply (pocklington_prime _ cert); [vm_compute; reflexivity|];
  repeat (apply Forall_cons; [|]); [..|apply Forall_nil].

(** The chain of primes under the modulus: each is certified from prime
    factors of its predecessor. *)
Lemma prime_405928799 : Z.prime 405928799.
Proof. by_pocklington [(4999, 2); (3691, 2)]; by_trial_division. Qed.

Lemma prime_12048837557 : Z.prime 12048837557.
Proof. by_pocklington [(93001, 2); (661, 2)]; by_trial_division. Qed.

Lemma prime_5156902474397 : Z.prime 5156902474397.
Proof. by_pocklington [(12048837557, 2)]. exact prime_12048837557. Qed.

Lemma prime_1670836401704629 : Z.prime 1670836401704629.
Proof. by_pocklington [(5156902474397, 2)]. exact prime_5156902474397. Qed.

Lemma modulus_prime : Z.prime vortex.BN254_FIELD_MODULUS.
Proof.
  by_pocklington
    [(1670836401704629, 2); (405928799, 2); (237073, 2); (11003, 2);
     (983, 2); (29, 2); (13, 5)].
  - exact prime_1670836401704629.
  - exact prime_405928799.
  - by_trial_division.
  - by_trial_division.
  - by_trial_division.
  - by_trial_division.
  - by_trial_division.
Qed.

(** C9.  The constant is the order of the scalar field of BN254, it is
    prime, and it is a 254-bit number. *)
Theorem BN254_FIELD_MODULUS_is_254_bit_prime :
  vortex.BN254_FIELD_MODULUS
  = 21888242871839275222246405745257275088548364400416034343698204186575808495617
  /\ Z.prime vortex.BN254_FIELD_MODULUS
  /\ 2 ^ 253 < vortex.BN254_FIELD_MODULUS < 2 ^ 254
  /\ Z.log2 vortex.BN254_FIELD_MODULUS = 253.
Proof.
  split; [reflexivity|]. split; [exact modulus_prime|].
  split; [split; reflexivity | reflexivity].
Qed.

(* ================================================================= *)
(** ** Further properties of the contract                            *)
(* ================================================================= *)

Lemma quotient_range (a : address.address) :
  address.well_formed a = true ->
  0 <= address.to_u256 a / vortex.BN254_FIELD_MODULUS <= 5.
Proof.
  intro Hwf. apply to_u256_range in Hwf.
  assert (0 < vortex.BN254_FIELD_MODULUS) as Hm by reflexivity.
  split.
  - apply Z.div_pos; lia.
  - apply Z.lt_succ_r. apply Z.div_lt_upper_bound; [exact Hm|].
    assert (MAX_U256 < vortex.BN254_FIELD_MODULUS * Z.succ 5)
      by reflexivity.
    lia.
Qed.

(** X1.  For every well-formed caller the quotient of line 35 is one of
    0, 1, 2, 3, 4, 5, and the public input is that byte followed by 31
    zero bytes: [transact] hands the verifier one of six inputs. *)
Theorem recipient_value_at_most_five (ctx : tx_context.TxContext) :
  address.well_formed (tx_context.sender ctx) = true ->
  exists q,
    vortex.recipient_value ctx = Ok q
    /\ 0 <= q <= 5
    /\ vortex.recipient_field ctx = Ok (q :: repeat 0 31).
Proof.
  intro Hwf. pose proof (quotient_range _ Hwf) as R.
  exists (address.to_u256 (tx_context.sender ctx)
          / vortex.BN254_FIELD_MODULUS).
  split; [apply recipient_value_eq|]. split; [exact R|].
  rewrite recipient_field_eq.
  set (q := _ / _) in *.
  assert (q = 0 \/ q = 1 \/ q = 2 \/ q = 3 \/ q = 4 \/ q = 5) as C by lia.
  destruct C as [->|[->|[->|[->|[->| ->]]]]]; reflexivity.
Qed.

Lemma recipient_value_at_most_five_witness :
  exists q,
    vortex.recipient_value (ctx_from (repeat 255 32) [] 0) = Ok q
    /\ 0 <= q <= 5
    /\ vortex.recipient_field (ctx_from (repeat 255 32) [] 0)
       = Ok (q :: repeat 0 31).
Proof.
  apply (recipient_value_at_most_five (ctx_from (repeat 255 32) [] 0)).
  reflexivity.
Defined.

(** X2.  Two well-formed callers get the same public input exactly when
    their values have the same quotient by the modulus. *)
Theorem recipient_field_eq_iff_quotient (cx cy : tx_context.TxContext) :
  address.well_formed (tx_context.sender cx) = true ->
  address.well_formed (tx_context.sender cy) = true ->
  (vortex.recipient_field cx = vortex.recipient_field cy
   <-> address.to_u256 (tx_context.sender cx) / vortex.BN254_FIELD_MODULUS
       = address.to_u256 (tx_context.sender cy) / vortex.BN254_FIELD_MODULUS).
Proof.
  intros Wx Wy. rewrite !recipient_field_eq.
  pose proof (quotient_range _ Wx) as Rx.
  pose proof (quotient_range _ Wy) as Ry.
  split.
  - intro E.
    apply (f_equal (fun r => match r with Ok b => b | _ => [] end)) in E.
    cbv beta iota in E. unfold bcs.to_bytes_u256 in E.
    assert (5 < 256 ^ Z.of_nat 32) by reflexivity.
    apply le_bytes_inj in E; [exact E| |]; lia.
  - now intros ->.
Qed.

Lemma recipient_field_eq_iff_quotient_witness :
  vortex.recipient_field (ctx_from (address.small 7) [] 0)
  = vortex.recipient_field (ctx_from (address.small 9) [1] 4)
  /\ vortex.recipient_field (ctx_from (address.small 7) [] 0)
     <> vortex.recipient_field (ctx_from (repeat 255 32) [] 0).
Proof.
  split.
  - apply (recipient_field_eq_iff_quotient
             (ctx_from (address.small 7) [] 0)
             (ctx_from (address.small 9) [1] 4)); reflexivity.
  - intro E.
    apply (recipient_field_eq_iff_quotient
             (ctx_from (address.small 7) [] 0)
             (ctx_from (repeat 255 32) [] 0)) in E;
      [discriminate E | reflexivity | reflexivity].
Defined.

Section MoreOfTheVerifier.
Context {g16 : groth16.Natives}.

Lemma run_transact_same_quotient
    (v : vortex.Vortex) (proof_points : vector u8)
    (cx cy : tx_context.TxContext) :
  address.to_u256 (tx_context.sender cx) / vortex.BN254_FIELD_MODULUS
  = address.to_u256 (tx_context.sender cy) / vortex.BN254_FIELD_MODULUS ->
  ledger.run_transact v cx proof_points
  = ledger.run_transact v cy proof_points.
Proof.
  intro Q. unfold ledger.run_transact.
  rewrite !transact_eq. cbn [vortex.self vortex.ctx].
  unfold verification, public_input. rewrite Q.
  destruct (groth16.verify_groth16_proof _ _ _ _) as [[|]| |]; reflexivity.
Qed.

(** X3.  A call ends the same way for any two callers whose values have
    the same quotient by the modulus, whatever else their transactions
    differ in: no other part of the context reaches the verification,
    and the object is the same afterwards. *)
Theorem run_transact_by_quotient
    (v : vortex.Vortex) (proof_points : vector u8)
    (cx cy : tx_context.TxContext) :
  address.to_u256 (tx_context.sender cx) / vortex.BN254_FIELD_MODULUS
  = address.to_u256 (tx_context.sender cy) / vortex.BN254_FIELD_MODULUS ->
  ledger.run_transact v cx proof_points
  = ledger.run_transact v cy proof_points
  /\ fst (ledger.run_transact v cy proof_points) = v.
Proof.
  intro Q. split; [now apply run_transact_same_quotient|].
  destruct (run_transact_frame v cy proof_points) as [R|[c R]];
    now rewrite R.
Qed.

(** X4.  On any object [transact] returns with its memory unchanged or
    aborts with code 0, unless the object's curve is not one the
    framework supports, when it aborts with the framework's code for
    that; it never stops on the division, and its public input never
    fails the framework's length checks. *)
Theorem transact_abort_codes
    (v : vortex.Vortex) (ctx : tx_context.TxContext)
    (proof_points : vector u8) :
  let m := {| vortex.self := v; vortex.ctx := ctx |} in
  if groth16.supported (groth16.id (vortex.curve v))
  then vortex.transact proof_points m = Ok (tt, m)
       \/ vortex.transact proof_points m = Abort 0
  else vortex.transact proof_points m = Abort groth16.EInvalidCurve.
Proof.
  intro m. rewrite transact_eq. cbn [vortex.self vortex.ctx m].
  unfold verification, groth16.verify_groth16_proof,
    groth16.verify_groth16_proof_internal, groth16.proof_points_from_bytes.
  cbn [groth16.inputs_bytes groth16.points_bytes].
  destruct (groth16.supported _); [|reflexivity].
  unfold public_input. rewrite to_bytes_u256_length.
  change (32 >? 32 * groth16.MaxPublicInputs) with false. cbv iota.
  destruct (groth16.verify_in_bytes _ _ _ _) as [[|]|]; auto.
Qed.

End MoreOfTheVerifier.

Section Histories.
Context {g16 : groth16.Natives} {txn : tx_context.Natives}
        {consts : vortex_constants.Constants}.

Lemma steps_from_ready (v : vortex.Vortex) (s : vortex.VerifierState) :
  steps (vortex.Ready v) s -> s = vortex.Ready v.
Proof.
  remember (vortex.Ready v) as s0 eqn:E0.
  induction 1 as [s|s s' s'' _ IH St]; [reflexivity|].
  specialize (IH E0). subst s s'.
  now apply ready_is_terminal.
Qed.

(** X5.  [transact] keeps no record of the proofs it has accepted: a
    call that succeeded succeeds again after any history of the object,
    in any later transaction of the same sender. *)
Theorem accepted_proof_is_replayable
    (v : vortex.Vortex) (ctx : tx_context.TxContext)
    (proof_points hash : vector u8) (n : u64) (s : vortex.VerifierState) :
  ledger.run_transact v ctx proof_points = (v, ledger.Success) ->
  steps (vortex.Ready v) s ->
  s = vortex.Ready v
  /\ ledger.run_transact v (ctx_from (tx_context.sender ctx) hash n)
       proof_points
     = (v, ledger.Success).
Proof.
  intros Acc St. split; [now apply steps_from_ready|].
  rewrite <- Acc. now apply run_transact_same_quotient.
Qed.

(** X6.  Whatever the history, the module holds no object or a Ready
    one: its curve is BN254 and its key is the prepared form of the
    embedded verification key. *)
Theorem reachable_states_are_ready (s : vortex.VerifierState) :
  steps vortex.Uninitialized s ->
  s = vortex.Uninitialized
  \/ exists v, s = vortex.Ready v /\ vortex.is_ready v.
Proof.
  remember vortex.Uninitialized as s0 eqn:E0.
  induction 1 as [s|s s' s'' _ IH St].
  - now left.
  - right. destruct (IH E0) as [->|[v [-> Rv]]].
    + pose proof St as St'.
      inversion St' as [ctx ctx' v E|]; subst; try discriminate.
      exists v. split; [reflexivity|].
      apply publish_is_ready. exact St.
    + exists v. split; [now apply ready_is_terminal | exact Rv].
Qed.

(** X7.  With room left in the context's counter, [init] fails only
    when the framework rejects the embedded key, with the code for that
    and never the one for an unknown curve; otherwise it adds exactly one
    object after those already shared, uses up one object id, and leaves
    the sender of the transaction as it was. *)
Theorem init_fails_only_on_rejected_key (m : vortex.InitMem) :
  tx_context.ids_created (vortex.init_ctx m) < MAX_U64 ->
  match groth16.prepare_in_bytes 1 vortex_constants.verifying_key with
  | None => vortex.init m = Abort groth16.EInvalidVerifyingKey
  | Some pvk =>
      exists m' uid,
        vortex.init m = Ok (tt, m')
        /\ vortex.shared m'
           = vortex.shared m
             ++ [{| vortex.id := uid; vortex.curve := groth16.bn254;
                    vortex.vk := pvk |}]
        /\ tx_context.ids_created (vortex.init_ctx m')
           = tx_context.ids_created (vortex.init_ctx m) + 1
        /\ tx_context.sender (vortex.init_ctx m')
           = tx_context.sender (vortex.init_ctx m)
  end.
Proof.
  intro Hn. rewrite (init_eq m Hn).
  unfold groth16.prepare_verifying_key,
    groth16.prepare_verifying_key_internal.
  cbn [groth16.id groth16.bn254].
  change (groth16.supported 1) with true. cbv iota.
  destruct (groth16.prepare_in_bytes 1 _) as [pvk|]; [|reflexivity].
  cbv zeta. do 2 eexists. split; [reflexivity|]. repeat split.
Qed.

End Histories.

Lemma sample_publish_step :
  @ledger.step sample.g16 sample.txn sample.consts
    vortex.Uninitialized (vortex.Ready sample.pool).
Proof.
  apply (@ledger.step_publish sample.g16 sample.txn sample.consts
           (ctx_from (address.small 1) [] 0)
           (ctx_from (address.small 1) [] 1)).
  reflexivity.
Qed.

Lemma run_transact_by_quotient_witness :
  @ledger.run_transact sample.g16 sample.pool
    (ctx_from (address.small 1) [] 0) (bcs.to_bytes_u256 0)
  = @ledger.run_transact sample.g16 sample.pool
      (ctx_from (address.small 200) [5] 9) (bcs.to_bytes_u256 0).
Proof.
  apply (@run_transact_by_quotient sample.g16 sample.pool
           (bcs.to_bytes_u256 0)
           (ctx_from (address.small 1) [] 0)
           (ctx_from (address.small 200) [5] 9)).
  reflexivity.
Defined.

Lemma accepted_proof_is_replayable_witness :
  @ledger.run_transact sample.g16 sample.pool
    (ctx_from (address.small 1) [9; 9] 3) (bcs.to_bytes_u256 0)
  = (sample.pool, ledger.Success).
Proof.
  apply (@accepted_proof_is_replayable sample.g16 sample.txn sample.consts
           sample.pool (ctx_from (address.small 1) [] 0)
           (bcs.to_bytes_u256 0) [9; 9] 3 (vortex.Ready sample.pool)).
  - reflexivity.
  - apply steps_none.
Defined.

Lemma reachable_states_are_ready_witness :
  vortex.Ready sample.pool = vortex.Uninitialized
  \/ exists v, vortex.Ready sample.pool = vortex.Ready v
               /\ @vortex.is_ready sample.g16 sample.consts v.
Proof.
  apply (@reachable_states_are_ready sample.g16 sample.txn sample.consts).
  apply (steps_more _ vortex.Uninitialized).
  - apply steps_none.
  - exact sample_publish_step.
Defined.

Lemma init_fails_only_on_rejected_key_witness :
  @vortex.init sample.g16 sample.txn scenario.rejected_key
    {| vortex.init_ctx := ctx_from (address.small 1) [] 0;
       vortex.shared := [sample.pool] |}
  = Abort groth16.EInvalidVerifyingKey.
Proof.
  apply (@init_fails_only_on_rejected_key sample.g16 sample.txn
           scenario.rejected_key
           {| vortex.init_ctx := ctx_from (address.small 1) [] 0;
              vortex.shared := [sample.pool] |}).
  reflexivity.
Defined.

(* ================================================================= *)
(** ** Further properties of the script                              *)
(* ================================================================= *)

Section MoreOfTheScript.
Context {env : client.Env}.

(** X8.  A command is submitted only at the end of one path: both key
    files were read, the proof was generated with the trimmed proving
    key and parsed, the local verification ran on it with the trimmed
    verification key and its answer was logged, and the proof's hex
    string, prefixed with 0x, decoded to the bytes the command carries.
    Nothing follows the submission but the log of its result, or of its
    error. *)
Theorem submission_follows_proving_and_verifying (call : client.MoveCall) :
  client.submitted = Some call ->
  exists pk vk proofJson proof isVerified proof_bytes last,
    client.readFileSync_utf8 client.provingKeyPath = Some pk
    /\ client.readFileSync_utf8 client.verificationKeyPath = Some vk
    /\ client.prove script_witness (client.trim pk) = Some proofJson
    /\ client.JSON_parse proofJson = Some proof
    /\ client.verify proofJson (client.trim vk) = Some isVerified
    /\ client.fromHex ([48; 120] ++ client.proofSerializedHex proof)
       = Some proof_bytes
    /\ call = script_command proof_bytes
    /\ (last = client.LogResult \/ last = client.LogError)
    /\ client.run
       = [client.Main;
          client.ReadFile client.provingKeyPath;
          client.ReadFile client.verificationKeyPath;
          client.Prove script_witness (client.trim pk);
          client.Verify proofJson (client.trim vk);
          client.LogVerified isVerified;
          client.SignAndExecute call;
          last].
Proof.
  unfold client.submitted, client.run, client.body, client.andThen,
    client.call, client.log, script_command, script_witness.
  destruct client.main as [[]|]; [|discriminate].
  destruct (client.readFileSync_utf8 client.provingKeyPath) as [pk|];
    [|discriminate].
  destruct (client.readFileSync_utf8 client.verificationKeyPath) as [vk|];
    [|discriminate].
  cbn [option_map]. rewrite trim_idempotent. change (5 * 6) with 30.
  destruct (client.prove _ _) as [pj|] eqn:Ep; [|discriminate].
  destruct (client.JSON_parse pj) as [pr|] eqn:Ej; [|discriminate].
  destruct (client.verify _ _) as [b|] eqn:Ev; [|discriminate].
  destruct (client.fromHex _) as [bytes|] eqn:Eh; [|discriminate].
  destruct (client.signAndExecuteTransaction _);
    cbn; intro E; injection E as <-;
    [ exists pk, vk, pj, pr, b, bytes, client.LogResult
    | exists pk, vk, pj, pr, b, bytes, client.LogError ];
    repeat split; auto.
Qed.

(** X9.  The answer of the local verification is logged and nothing
    else: when every other call returns, the command is submitted
    whether [verify] said [true] or [false]. *)
Theorem script_submits_whatever_verify_says
    (pk vk proofJson : client.jsstring) (proof : client.Proof)
    (isVerified : bool) (proof_bytes : vector u8) :
  client.main = Some tt ->
  client.readFileSync_utf8 client.provingKeyPath = Some pk ->
  client.readFileSync_utf8 client.verificationKeyPath = Some vk ->
  client.prove script_witness (client.trim pk) = Some proofJson ->
  client.JSON_parse proofJson = Some proof ->
  client.verify proofJson (client.trim vk) = Some isVerified ->
  client.fromHex ([48; 120] ++ client.proofSerializedHex proof)
  = Some proof_bytes ->
  client.submitted = Some (script_command proof_bytes)
  /\ In (client.LogVerified isVerified) client.run.
Proof.
  intros Hm Hp Hv Hpr Hj Hve Hh.
  unfold client.submitted, client.run, client.body, client.andThen,
    client.call, client.log, script_command.
  unfold script_witness in Hpr.
  rewrite Hm, Hp, Hv. cbn [option_map]. rewrite trim_idempotent.
  change (5 * 6) with 30. rewrite Hpr, Hj, Hve, Hh.
  destruct (client.signAndExecuteTransaction _); cbn; split; auto 10.
Qed.

(** X10.  When either key file cannot be read the script goes no
    further than the failed read: it logs the error and neither proves,
    verifies nor submits. *)
Theorem missing_key_file_stops_the_script :
  client.main = Some tt ->
  client.readFileSync_utf8 client.provingKeyPath = None
  \/ client.readFileSync_utf8 client.verificationKeyPath = None ->
  client.submitted = None
  /\ (client.run
      = [client.Main; client.ReadFile client.provingKeyPath;
         client.LogError]
      \/ client.run
         = [client.Main; client.ReadFile client.provingKeyPath;
            client.ReadFile client.verificationKeyPath; client.LogError]).
Proof.
  intros Hm H.
  unfold client.submitted, client.run, client.body, client.andThen,
    client.call, client.log.
  rewrite Hm.
  destruct (client.readFileSync_utf8 client.provingKeyPath) as [pk|].
  - destruct H as [H|H]; [discriminate|]. rewrite H. cbn. auto.
  - cbn. auto.
Qed.

(** X11.  When the prover throws, on an unsatisfiable witness or a key
    it cannot parse, the script logs the error and stops: it does not
    verify and it submits nothing. *)
Theorem failed_proof_is_not_submitted (pk vk : client.jsstring) :
  client.main = Some tt ->
  client.readFileSync_utf8 client.provingKeyPath = Some pk ->
  client.readFileSync_utf8 client.verificationKeyPath = Some vk ->
  client.prove script_witness (client.trim pk) = None ->
  client.submitted = None
  /\ client.run
     = [client.Main; client.ReadFile client.provingKeyPath;
        client.ReadFile client.verificationKeyPath;
        client.Prove script_witness (client.trim pk); client.LogError].
Proof.
  intros Hm Hp Hv Hpr.
  unfold client.submitted, client.run, client.body, client.andThen,
    client.call, client.log.
  unfold script_witness in *.
  rewrite Hm, Hp, Hv. cbn [option_map]. change (5 * 6) with 30.
  rewrite Hpr. cbn. auto.
Qed.

(** X12.  Whatever the environment, the object and the caller, the
    command the script submits does not reach [transact]: it lists three
    arguments where two parameters are to be bound, and the ledger turns
    it away with the object untouched. *)
Theorem script_command_never_binds {g16 : groth16.Natives}
    (v : vortex.Vortex) (ctx : tx_context.TxContext)
    (call : client.MoveCall) :
  client.submitted = Some call ->
  ledger.call_transact v ctx (client.arguments call)
  = (v, ledger.CommandArgumentError).
Proof.
  intro H. destruct (script_submits_three_arguments call H) as [bytes ->].
  apply three_arguments_do_not_bind.
Qed.

End MoreOfTheScript.

Lemma submission_follows_proving_and_verifying_witness :
  exists pk vk proofJson isVerified last,
    @client.submitted sample.env
    = Some (@script_command sample.env (bcs.to_bytes_u256 0))
    /\ @client.run sample.env
       = [client.Main;
          client.ReadFile client.provingKeyPath;
          client.ReadFile client.verificationKeyPath;
          client.Prove script_witness (client.trim pk);
          client.Verify proofJson (client.trim vk);
          client.LogVerified isVerified;
          client.SignAndExecute
            (@script_command sample.env (bcs.to_bytes_u256 0));
          last].
Proof.
  destruct (@submission_follows_proving_and_verifying sample.env
              (@script_command sample.env (bcs.to_bytes_u256 0)) eq_refl)
    as [pk [vk [pj [pr [b [bytes [last H]]]]]]].
  exists pk, vk, pj, b, last. split; [reflexivity|].
  apply H.
Defined.

Lemma script_submits_whatever_verify_says_witness :
  @client.submitted scenario.verify_says_no
  = Some (@script_command scenario.verify_says_no (bcs.to_bytes_u256 0))
  /\ In (client.LogVerified false) (@client.run scenario.verify_says_no).
Proof.
  apply (@script_submits_whatever_verify_says scenario.verify_says_no
           [32; 97; 98; 10] [9; 99; 100; 13; 10] [97; 98]
           {| client.proofA := []; client.proofB := [];
              client.proofC := []; client.publicInputs := [];
              client.proofSerializedHex := [97; 98];
              client.publicInputsSerializedHex := [] |}
           false (bcs.to_bytes_u256 0)); reflexivity.
Defined.

Lemma missing_key_file_stops_the_script_witness :
  @client.submitted scenario.missing_verification_key = None
  /\ (@client.run scenario.missing_verification_key
      = [client.Main; client.ReadFile client.provingKeyPath;
         client.LogError]
      \/ @client.run scenario.missing_verification_key
         = [client.Main; client.ReadFile client.provingKeyPath;
            client.ReadFile client.verificationKeyPath; client.LogError]).
Proof.
  apply (@missing_key_file_stops_the_script
           scenario.missing_verification_key).
  - reflexivity.
  - right. reflexivity.
Defined.

Lemma failed_proof_is_not_submitted_witness :
  @client.submitted scenario.prover_throws = None
  /\ @client.run scenario.prover_throws
     = [client.Main; client.ReadFile client.provingKeyPath;
        client.ReadFile client.verificationKeyPath;
        client.Prove script_witness [97; 98]; client.LogError].
Proof.
  apply (@failed_proof_is_not_submitted scenario.prover_throws
           [32; 97; 98; 10] [9; 99; 100; 13; 10]); reflexivity.
Defined.

Lemma script_command_never_binds_witness :
  @ledger.call_transact sample.g16 sample.pool
    (ctx_from (address.small 1) [] 0)
    (client.arguments (@script_command sample.env (bcs.to_bytes_u256 0)))
  = (sample.pool, ledger.CommandArgumentError).
Proof.
  apply (@script_command_never_binds sample.env sample.g16 sample.pool
           (ctx_from (address.small 1) [] 0)
           (@script_command sample.env (bcs.to_bytes_u256 0))).
  reflexivity.
Defined.
